(** * full_auth_service: the validating gateway of [backend_folder/main_back.py]

    A shallow embedding of the field validators of [UserCreate], of the
    upstream call wrapper [handle_postgres_request] and of the four
    endpoints, followed by the properties of the specification that were
    checked against them. *)

From Stdlib Require Import String Ascii List Bool Arith NArith ZArith Lia.
From Stdlib Require Import DecimalString.
From Stdlib Require DecimalZ DecimalPos.
Import ListNotations.

Local Open Scope string_scope.
Local Open Scope N_scope.

(* ================================================================== *)
(** * Python strings *)
(* ================================================================== *)

(** A Python [str] is a sequence of Unicode code points. *)
Definition char := N.
Definition pystr := list char.

(** An ASCII literal of the source, as a [pystr]. *)
Definition lit (s : string) : pystr :=
  map N_of_ascii (list_ascii_of_string s).

Definition pystr_eqb (a b : pystr) : bool :=
  if list_eq_dec N.eq_dec a b then true else false.

Fixpoint drop_while (p : char -> bool) (s : pystr) : pystr :=
  match s with
  | [] => []
  | c :: t => if p c then drop_while p t else s
  end.

(** The character tables of the interpreter on ASCII. *)
Definition between (lo hi c : char) : bool := (lo <=? c) && (c <=? hi).

Definition ascii_isdigit (c : char) : bool := between 48 57 c.
Definition ascii_isupper (c : char) : bool := between 65 90 c.
Definition ascii_islower (c : char) : bool := between 97 122 c.
Definition ascii_isalpha (c : char) : bool := ascii_isupper c || ascii_islower c.
Definition ascii_isspace (c : char) : bool := between 9 13 c || between 28 32 c.
Definition ascii_lower (c : char) : char := if ascii_isupper c then c + 32 else c.

Definition is_ascii (c : char) : bool := c <? 128.

(** Beyond ASCII the tables come from the Unicode database the interpreter
    was built with; they are taken as they are.  [udb_lower] is [str.lower]
    on strings that hold a non-ASCII character (lower-casing is not
    character-wise there). *)
Record UnicodeData := {
  udb_isdigit : char -> bool;
  udb_isupper : char -> bool;
  udb_islower : char -> bool;
  udb_isalpha : char -> bool;
  udb_isspace : char -> bool;
  udb_lower : pystr -> pystr
}.

(** A database with nothing beyond ASCII, to run the model on examples. *)
Definition ascii_only : UnicodeData := {|
  udb_isdigit := fun _ => false;
  udb_isupper := fun _ => false;
  udb_islower := fun _ => false;
  udb_isalpha := fun _ => false;
  udb_isspace := fun _ => false;
  udb_lower := fun s => s
|}.

(* ================================================================== *)
(** * Regular expressions *)
(* ================================================================== *)

(** The fragment of [re] the source uses. *)
Inductive regex :=
| Cls (p : char -> bool)      (* a literal or a bracketed class *)
| Cat (r1 r2 : regex)
| Alt (r1 r2 : regex)
| Plus (r : regex)            (* greedy [+] *)
| NotAhead (r : regex)        (* [(?!r)] *)
| Bos                         (* [^], no MULTILINE *)
| Eos.                        (* [$], no MULTILINE *)

(** Backtracking matcher in continuation style: [run r A i s k] matches
    [r] at index [i], where [s] is the rest of the subject, and hands the
    position after the match to [k]; alternatives are tried in the order of
    the [re] engine (left branch first, longest repetition first). *)
Definition cont (A : Type) := nat -> pystr -> option A.

(** One more round of a repetition, as long as the last one consumed
    something. *)
Fixpoint repeat_greedy (A : Type) (step : nat -> pystr -> cont A -> option A)
    (k : cont A) (fuel : nat) (i : nat) (s : pystr) {struct fuel} : option A :=
  step i s (fun j t =>
    match
      match fuel with
      | S f =>
          if (length t <? length s)%nat then repeat_greedy A step k f j t
          else None
      | O => None
      end
    with
    | Some a => Some a
    | None => k j t
    end).

Fixpoint run (r : regex) (A : Type) (i : nat) (s : pystr) (k : cont A)
    {struct r} : option A :=
  match r with
  | Cls p =>
      match s with
      | c :: t => if p c then k (S i) t else None
      | [] => None
      end
  | Cat r1 r2 => run r1 A i s (fun j t => run r2 A j t k)
  | Alt r1 r2 =>
      match run r1 A i s k with
      | Some a => Some a
      | None => run r2 A i s k
      end
  | Plus r' => repeat_greedy A (run r' A) k (length s) i s
  | NotAhead r' =>
      match run r' unit i s (fun _ _ => Some tt) with
      | Some _ => None
      | None => k i s
      end
  | Bos => if (i =? 0)%nat then k i s else None
  | Eos =>
      match s with
      | [] => k i s
      | [c] => if c =? 10 then k i s else None
      | _ => None
      end
  end.

Definition is_some {A} (o : option A) : bool :=
  match o with Some _ => true | None => false end.

(** [re.fullmatch(r, v)]: a match from index 0 that ends at the end. *)
Definition fullmatch (r : regex) (v : pystr) : bool :=
  is_some (run r unit 0 v (fun _ t => match t with [] => Some tt | _ => None end)).

(** [r.search(v)]: a match from some index. *)
Fixpoint search_from (r : regex) (i : nat) (s : pystr) : bool :=
  is_some (run r unit i s (fun _ _ => Some tt))
  || match s with
     | [] => false
     | _ :: t => search_from r (S i) t
     end.

Definition search (r : regex) (v : pystr) : bool := search_from r 0 v.

(** [re.sub(r, repl, v)]: every leftmost non-overlapping match is replaced;
    an empty match is replaced and the scan moves one character on. *)
Fixpoint sub_from (fuel : nat) (r : regex) (repl : pystr) (i : nat) (s : pystr)
    : pystr :=
  match fuel with
  | O => s
  | S f =>
      match run r (nat * pystr) i s (fun j t => Some (j, t)) with
      | Some (j, t) =>
          if (length t <? length s)%nat then (repl ++ sub_from f r repl j t)%list
          else
            match s with
            | [] => repl
            | c :: t' => (repl ++ c :: sub_from f r repl (S i) t')%list
            end
      | None =>
          match s with
          | [] => []
          | c :: t' => c :: sub_from f r repl (S i) t'
          end
      end
  end.

Definition sub (r : regex) (repl v : pystr) : pystr :=
  sub_from (S (length v)) r repl 0 v.

(** The body of a bracketed class, read as [re] reads it: a backslash
    makes the character after it literal, [a-b] is a range, any other
    character stands for itself.  (The source has no negated class and no
    class shorthand inside brackets.) *)
Fixpoint bracket_items (body : pystr) : list (char * char) :=
  match body with
  | [] => []
  | 92 :: c :: t => (c, c) :: bracket_items t
  | a :: 45 :: b :: t => (a, b) :: bracket_items t
  | a :: t => (a, a) :: bracket_items t
  end.

Definition in_bracket (body : string) (c : char) : bool :=
  existsb (fun r => between (fst r) (snd r) c) (bracket_items (lit body)).

Definition bracket (body : string) : regex := Cls (in_bracket body).

(** One literal character, such as an escaped dot. *)
Definition chr (a : string) : regex :=
  Cls (fun c => existsb (N.eqb c) (lit a)).

(* ================================================================== *)
(** * Exceptions and results *)
(* ================================================================== *)

(** The exception classes that can reach the handlers of the source:
    builtins, the [httpx] hierarchy and [fastapi.HTTPException]. *)
Module ExcClass.

Inductive t :=
| BaseException | Exception
| KeyboardInterrupt | CancelledError
| ValueError | AssertionError | AttributeError | TypeError | RuntimeError
| JSONDecodeError
| HTTPError | RequestError | TransportError
| TimeoutException | ConnectTimeout | ReadTimeout | WriteTimeout | PoolTimeout
| NetworkError | ConnectError | ReadError | WriteError | CloseError
| ProtocolError | LocalProtocolError | RemoteProtocolError
| ProxyError | UnsupportedProtocol
| DecodingError | TooManyRedirects
| HTTPStatusError
| InvalidURL | CookieConflict
| HTTPException.

Definition eq_dec (a b : t) : {a = b} + {a <> b}.
Proof. decide equality. Defined.

Definition eqb (a b : t) : bool := if eq_dec a b then true else false.

(** The direct base class; [BaseException] is the root. *)
Definition base (c : t) : option t :=
  match c with
  | BaseException => None
  | Exception | KeyboardInterrupt | CancelledError => Some BaseException
  | ValueError | AssertionError | AttributeError | TypeError | RuntimeError =>
      Some Exception
  | JSONDecodeError => Some ValueError
  | HTTPError | InvalidURL | CookieConflict | HTTPException => Some Exception
  | RequestError | HTTPStatusError => Some HTTPError
  | TransportError | DecodingError | TooManyRedirects => Some RequestError
  | TimeoutException | NetworkError | ProtocolError
  | ProxyError | UnsupportedProtocol => Some TransportError
  | ConnectTimeout | ReadTimeout | WriteTimeout | PoolTimeout =>
      Some TimeoutException
  | ConnectError | ReadError | WriteError | CloseError => Some NetworkError
  | LocalProtocolError | RemoteProtocolError => Some ProtocolError
  end.

(** The distance of a class to the root, which bounds the walk below. *)
Definition depth (c : t) : nat :=
  match c with
  | BaseException => 0
  | Exception | KeyboardInterrupt | CancelledError => 1
  | ValueError | AssertionError | AttributeError | TypeError | RuntimeError => 2
  | HTTPError | InvalidURL | CookieConflict | HTTPException => 2
  | JSONDecodeError | RequestError | HTTPStatusError => 3
  | TransportError | DecodingError | TooManyRedirects => 4
  | TimeoutException | NetworkError | ProtocolError
  | ProxyError | UnsupportedProtocol => 5
  | _ => 6
  end.

Fixpoint subclass_within (n : nat) (c target : t) : bool :=
  eqb c target
  || match n, base c with
     | S n', Some b => subclass_within n' b target
     | _, _ => false
     end.

(** [issubclass(c, target)]. *)
Definition issubclass (c target : t) : bool :=
  subclass_within (depth c) c target.

End ExcClass.

(** A decoded JSON document. *)
#[local] Set Warnings "-register-all".
Inductive Json :=
| JNull
| JBool (b : bool)
| JInt (z : Z)
| JStr (s : pystr)
| JArr (items : list Json)
| JObj (members : list (string * Json)).

(** An [httpx.Response] as the source observes it: its status code and
    what [response.json()] does, which is the decoded body or a
    [JSONDecodeError] with the given message. *)
Record Response := {
  status_code : Z;
  json_body : Json + string
}.

(** The [detail] of an [HTTPException]: the source passes a dict of
    strings or a bare string. *)
Inductive Detail :=
| DDict (items : list (string * string))
| DStr (s : string).

(** Exception objects.  [str(e)] is the message. *)
Inductive exn :=
| PyExc (c : ExcClass.t) (message : string)
| HTTPStatusError (message : string) (response : Response)
| HTTPException (status : Z) (detail : Detail).

Definition class_of (e : exn) : ExcClass.t :=
  match e with
  | PyExc c _ => c
  | HTTPStatusError _ _ => ExcClass.HTTPStatusError
  | HTTPException _ _ => ExcClass.HTTPException
  end.

Definition isinstance (e : exn) (c : ExcClass.t) : bool :=
  ExcClass.issubclass (class_of e) c.

Definition ValueError (message : string) : exn :=
  PyExc ExcClass.ValueError message.

Definition string_of_Z (z : Z) : string :=
  NilZero.string_of_int (Z.to_int z).

Definition repr_detail (d : Detail) : string :=
  match d with
  | DStr s => s
  | DDict items =>
      "{" ++ String.concat ", "
               (map (fun kv => "'" ++ fst kv ++ "': '" ++ snd kv ++ "'") items)
          ++ "}"
  end.

(** [str(e)]. *)
Definition str (e : exn) : string :=
  match e with
  | PyExc _ m => m
  | HTTPStatusError m _ => m
  | HTTPException s d => string_of_Z s ++ ": " ++ repr_detail d
  end.

Inductive result (A : Type) :=
| Return (a : A)
| Raise (e : exn).

Arguments Return {A} a.
Arguments Raise {A} e.

Definition bind {A B} (m : result A) (f : A -> result B) : result B :=
  match m with
  | Return a => f a
  | Raise e => Raise e
  end.

Notation "x <- m ;; k" := (bind m (fun x => k))
  (at level 61, m at next level, right associativity).

(** [try: body except c1: h1 except c2: h2 ...]: the first clause whose
    class the exception is an instance of handles it. *)
Fixpoint dispatch {A} (clauses : list (ExcClass.t * (exn -> result A)))
    (e : exn) : result A :=
  match clauses with
  | [] => Raise e
  | (c, handler) :: rest =>
      if isinstance e c then handler e else dispatch rest e
  end.

(* ================================================================== *)
(** * The validators of [UserCreate] *)
(* ================================================================== *)

Section Validators.

Variable U : UnicodeData.

(** [c.isdigit()], [c.isupper()], ... for one character. *)
Definition isdigit (c : char) : bool :=
  if is_ascii c then ascii_isdigit c else udb_isdigit U c.
Definition isupper (c : char) : bool :=
  if is_ascii c then ascii_isupper c else udb_isupper U c.
Definition islower (c : char) : bool :=
  if is_ascii c then ascii_islower c else udb_islower U c.
Definition isalpha (c : char) : bool :=
  if is_ascii c then ascii_isalpha c else udb_isalpha U c.
Definition isspace (c : char) : bool :=
  if is_ascii c then ascii_isspace c else udb_isspace U c.

(** [v.isdigit()] and [v.isalpha()] on a string: false on the empty one. *)
Definition str_isdigit (v : pystr) : bool :=
  negb (Nat.eqb (length v) 0) && forallb isdigit v.
Definition str_isalpha (v : pystr) : bool :=
  negb (Nat.eqb (length v) 0) && forallb isalpha v.

(** [v.lower()]. *)
Definition str_lower (v : pystr) : pystr :=
  if forallb is_ascii v then map ascii_lower v else udb_lower U v.

(** [v.strip()]. *)
Definition lstrip (v : pystr) : pystr := drop_while isspace v.
Definition rstrip (v : pystr) : pystr := rev (drop_while isspace (rev v)).
Definition strip (v : pystr) : pystr := rstrip (lstrip v).

(** [v.replace] of every space by nothing. *)
Definition remove_spaces (v : pystr) : pystr :=
  filter (fun c => negb (c =? 32)) v.

(** ** username *)

(** [r'^(?!(\.+_+|_+\.+)$)[A-Za-z0-9._]+$'] *)
Definition username_re : regex :=
  Cat Bos
   (Cat (NotAhead
           (Cat (Alt (Cat (Plus (chr ".")) (Plus (chr "_")))
                     (Cat (Plus (chr "_")) (Plus (chr "."))))
                Eos))
     (Cat (Plus (bracket "A-Za-z0-9._")) Eos)).

Definition username_chars_message : string :=
  "Username может содержать только латинские буквы (a-z), цифры, " ++
  "точки и подчёркивания, но не может состоять только из них".

Definition username_digits_message : string :=
  "Username не может состоять только из цифр".

Definition validate_username (v : pystr) : result pystr :=
  if negb (fullmatch username_re v) then
    Raise (ValueError username_chars_message)
  else if str_isdigit v then
    Raise (ValueError username_digits_message)
  else Return v.

(** ** password *)

(** ['[@_!#$%^&*()<>?/\|}{~:]']: the literal is not a raw string and
    [\|] is no escape of Python, so the backslash reaches [re.compile]. *)
Definition special_chars : regex := bracket "@_!#$%^&*()<>?/\|}{~:".

Definition password_length_message : string :=
  "Пароль должен быть не менее 8 символов".
Definition password_digit_message : string :=
  "Пароль должен содержать хотя бы одну цифру".
Definition password_upper_message : string :=
  "Пароль должен содержать хотя бы одну заглавную букву".
Definition password_lower_message : string :=
  "Пароль должен содержать хотя бы одну строчную букву".
(** The message is not a raw string either: its backslash is shown. *)
Definition password_special_message : string :=
  "Пароль должен содержать хотя бы один специальный символ (@_!#$%^&*()<>?/\|}{~:)".

Definition validate_password (v : pystr) : result pystr :=
  if (length v <? 8)%nat then
    Raise (ValueError password_length_message)
  else if negb (existsb isdigit v) then
    Raise (ValueError password_digit_message)
  else if negb (existsb isupper v) then
    Raise (ValueError password_upper_message)
  else if negb (existsb islower v) then
    Raise (ValueError password_lower_message)
  else if negb (search special_chars v) then
    Raise (ValueError password_special_message)
  else Return v.

(** ** name *)

Definition name_message : string :=
  "Имя должно содержать только буквы и пробелы".

Definition validate_name (v : option pystr) : result (option pystr) :=
  match v with
  | None => Return None
  | Some v =>
      let normalized_name := sub (Plus (Cls isspace)) (lit " ") (strip v) in
      if negb (str_isalpha (remove_spaces normalized_name)) then
        Raise (ValueError name_message)
      else Return (Some normalized_name)
  end.

(** ** role *)

Definition allowed_roles : list string := ["user"; "admin"].

(** [v.lower()] on what the field type [Optional[str]] lets through:
    [None] has no such attribute. *)
Definition call_lower (v : option pystr) : result pystr :=
  match v with
  | Some s => Return (str_lower s)
  | None =>
      Raise (PyExc ExcClass.AttributeError
               "'NoneType' object has no attribute 'lower'")
  end.

Definition role_message : string :=
  "Роль должна быть одной из: " ++ String.concat ", " allowed_roles.

Definition validate_role (v : option pystr) : result pystr :=
  l <- call_lower v ;;
  if negb (existsb (fun r => pystr_eqb l (lit r)) allowed_roles) then
    Raise (ValueError role_message)
  else call_lower v.

End Validators.

(* ================================================================== *)
(** * The model [UserCreate] *)
(* ================================================================== *)

(** What pydantic reports for one field: the kind of the error, with the
    message of the validator when it comes from one. *)
Inductive field_error :=
| Missing
| StringType
| StringTooShort (min_length : nat)
| StringTooLong (max_length : nat)
| IntParsing
| GreaterThanEqual (ge : Z)
| LessThanEqual (le : Z)
| EmailInvalid
| ValueErrorIn (message : string).

(** The outcome of building a model: the instance, a
    [pydantic.ValidationError] with one line per failed field, or an
    exception of a validator that pydantic does not turn into a line. *)
Inductive validation (A : Type) :=
| Valid (a : A)
| Invalid (errors : list (string * field_error))
| Crashed (e : exn).

Arguments Valid {A} a.
Arguments Invalid {A} errors.
Arguments Crashed {A} e.

(** Fields are validated in the order of their declaration; the lines of
    failed fields are collected, an exception ends the validation. *)
Definition ap {A B} (f : validation (A -> B)) (x : validation A)
    : validation B :=
  match f with
  | Crashed e => Crashed e
  | Invalid errs =>
      match x with
      | Valid _ => Invalid errs
      | Invalid errs' => Invalid (errs ++ errs')%list
      | Crashed e => Crashed e
      end
  | Valid g =>
      match x with
      | Valid a => Valid (g a)
      | Invalid errs' => Invalid errs'
      | Crashed e => Crashed e
      end
  end.

Infix "<*>" := ap (at level 50, left associativity).

(** A request body, decoded: the members of the JSON object. *)
Definition body := list (string * Json).

Fixpoint get (key : string) (b : body) : option Json :=
  match b with
  | [] => None
  | (k, j) :: rest => if String.eqb k key then Some j else get key rest
  end.

(** A field that is absent takes its default, which is not validated; a
    field without default is required. *)
Definition field {A} (field_name : string) (default : option A)
    (present : Json -> validation A) (b : body) : validation A :=
  match get field_name b with
  | Some j => present j
  | None =>
      match default with
      | Some d => Valid d
      | None => Invalid [(field_name, Missing)]
      end
  end.

(** A [field_validator] (mode [after]) runs on the output of the type's
    own validation; its [ValueError] and [AssertionError] become lines. *)
Definition after {A B} (field_name : string) (core : field_error + A)
    (validator : A -> result B) : validation B :=
  match core with
  | inl err => Invalid [(field_name, err)]
  | inr a =>
      match validator a with
      | Return b => Valid b
      | Raise e =>
          if isinstance e ExcClass.ValueError
             || isinstance e ExcClass.AssertionError
          then Invalid [(field_name, ValueErrorIn (str e))]
          else Crashed e
      end
  end.

(** [str] with the length bounds of [Field]. *)
Definition str_schema (min_length max_length : option nat) (j : Json)
    : field_error + pystr :=
  match j with
  | JStr s =>
      match min_length with
      | Some m => if (length s <? m)%nat then inl (StringTooShort m) else
          match max_length with
          | Some M => if (M <? length s)%nat then inl (StringTooLong M) else inr s
          | None => inr s
          end
      | None =>
          match max_length with
          | Some M => if (M <? length s)%nat then inl (StringTooLong M) else inr s
          | None => inr s
          end
      end
  | _ => inl StringType
  end.

(** [Optional[T]]. *)
Definition nullable {A} (schema : Json -> field_error + A) (j : Json)
    : field_error + option A :=
  match j with
  | JNull => inr None
  | _ => match schema j with
         | inl err => inl err
         | inr a => inr (Some a)
         end
  end.

(** The parts of pydantic that the source only configures: the parser of
    [int] and the check of [EmailStr]. *)
Record Pydantic := {
  int_parser : Json -> option Z;
  email_validator : Json -> option pystr
}.

Definition int_schema (P : Pydantic) (ge le : Z) (j : Json)
    : field_error + Z :=
  match int_parser P j with
  | None => inl IntParsing
  | Some z =>
      if (z <? ge)%Z then inl (GreaterThanEqual ge)
      else if (le <? z)%Z then inl (LessThanEqual le)
      else inr z
  end.

Definition email_schema (P : Pydantic) (j : Json) : field_error + pystr :=
  match email_validator P j with
  | None => inl EmailInvalid
  | Some e => inr e
  end.

(** A stand-in that reads integers only and knows no address. *)
Definition plain_pydantic : Pydantic := {|
  int_parser := fun j => match j with JInt z => Some z | _ => None end;
  email_validator := fun _ => None
|}.

(** The declared fields:
    [username: str = Field(default=None, min_length=2, max_length=50)],
    [password: str],
    [name: Optional[str] = Field(default=None, min_length=2, max_length=50)],
    [age: Optional[int] = Field(default=None, ge=0, le=150)],
    [email: Optional[EmailStr] = None] and [role: Optional[str] = "user"].
    With its default [None], [username] holds [None] or a string. *)
Record UserCreate := {
  username : option pystr;
  password : pystr;
  name : option pystr;
  age : option Z;
  email : option pystr;
  role : option pystr
}.

Section Model.

Variable U : UnicodeData.
Variable P : Pydantic.

(** Building [UserCreate] from the members of a request body. *)
Definition UserCreate_validate (b : body) : validation UserCreate :=
  Valid Build_UserCreate
  <*> field "username" (Some None)
        (fun j => after "username" (str_schema (Some 2%nat) (Some 50%nat) j)
                    (fun v => u <- validate_username U v ;; Return (Some u))) b
  <*> field "password" None
        (fun j => after "password" (str_schema None None j)
                    (validate_password U)) b
  <*> field "name" (Some None)
        (fun j => after "name"
                    (nullable (str_schema (Some 2%nat) (Some 50%nat)) j)
                    (validate_name U)) b
  <*> field "age" (Some None)
        (fun j => after "age" (nullable (int_schema P 0 150) j) Return) b
  <*> field "email" (Some None)
        (fun j => after "email" (nullable (email_schema P) j) Return) b
  <*> field "role" (Some (Some (lit "user")))
        (fun j => after "role" (nullable (str_schema None None) j)
                    (fun v => r <- validate_role U v ;; Return (Some r))) b.

End Model.

(* ================================================================== *)
(** * The upstream proxy *)
(* ================================================================== *)

Definition POSTGRES_SERVICE_URL : string := "http://query-service-masha:8003".

(** One call of the client: [getattr(client, method)(url, **kwargs)]. *)
Record Request := {
  method : string;
  url : string;
  json : option UserCreate
}.

(** [JSONResponse(content=..., status_code=...)]. *)
Record JSONResponse := {
  content : Json;
  response_status : Z
}.

Section Proxy.

(** The downstream service seen through the client with its timeout of 30:
    awaiting a call returns a response or raises; a timeout that elapses
    is raised as one of the subclasses of [TimeoutException]. *)
Variable send : Request -> result Response.

(** The text [httpx] gives the [HTTPStatusError] of a response. *)
Variable status_error_message : Response -> string.

(** [response.raise_for_status()]: every status outside 200..299 raises. *)
Definition raise_for_status (r : Response) : result Response :=
  if ((200 <=? status_code r) && (status_code r <=? 299))%Z then Return r
  else Raise (HTTPStatusError (status_error_message r) r).

(** [response.json()]. *)
Definition json_of (r : Response) : result Json :=
  match json_body r with
  | inl j => Return j
  | inr m => Raise (PyExc ExcClass.JSONDecodeError m)
  end.

(** [e.response]. *)
Definition response_of (e : exn) : result Response :=
  match e with
  | HTTPStatusError _ r => Return r
  | _ =>
      Raise (PyExc ExcClass.AttributeError
               "object has no attribute 'response'")
  end.

Definition handle_postgres_request (method : string) (url : string)
    (json : option UserCreate) : result Response :=
  match
    response <- send {| method := method; url := url; json := json |} ;;
    _ <- raise_for_status response ;;
    Return response
  with
  | Return response => Return response
  | Raise e =>
      dispatch
        [ (ExcClass.ConnectError, fun e =>
             Raise (HTTPException 503
                      (DDict [("error", "Postgres service unavailable");
                              ("type", "connection_error")])));
          (ExcClass.HTTPStatusError, fun e =>
             response <- response_of e ;;
             Raise (HTTPException (status_code response)
                      (DDict [("error",
                               "Postgres service returned error: " ++ str e);
                              ("type", "http_error")])));
          (ExcClass.Exception, fun e =>
             Raise (HTTPException 500
                      (DDict [("error", "Internal server error");
                              ("type", "unexpected_error")]))) ]
        e
  end.

(** The body shared by the four routes, after the call: build the
    [JSONResponse]; an [HTTPException] is raised again, any other
    exception becomes a 500 whose detail is [str(e)].  The constructor
    renders its content, which is taken to succeed: [Json] has no
    floats, whose values that are not finite do not render. *)
Definition reply (postgres_response : result Response) : result JSONResponse :=
  match
    r <- postgres_response ;;
    j <- json_of r ;;
    Return {| content := j; response_status := status_code r |}
  with
  | Return resp => Return resp
  | Raise e =>
      dispatch
        [ (ExcClass.HTTPException, fun he => Raise he);
          (ExcClass.Exception, fun e =>
             Raise (HTTPException 500 (DStr (str e)))) ]
        e
  end.

Definition add_user (user_data : UserCreate) : result JSONResponse :=
  reply (handle_postgres_request "post"
           (POSTGRES_SERVICE_URL ++ "/add_user") (Some user_data)).

Definition delete_user (user_id : Z) : result JSONResponse :=
  reply (handle_postgres_request "delete"
           (POSTGRES_SERVICE_URL ++ "/delete_user/" ++ string_of_Z user_id)
           None).

Definition get_user (user_id : Z) : result JSONResponse :=
  reply (handle_postgres_request "get"
           (POSTGRES_SERVICE_URL ++ "/get_user/" ++ string_of_Z user_id)
           None).

Definition get_all_users : result JSONResponse :=
  reply (handle_postgres_request "get"
           (POSTGRES_SERVICE_URL ++ "/get_all_users") None).

End Proxy.

(** The routes of the application and their arguments. *)
Inductive route :=
| AddUser (user_data : UserCreate)
| DeleteUser (user_id : Z)
| GetUser (user_id : Z)
| GetAllUsers.

Definition serve (send : Request -> result Response)
    (status_error_message : Response -> string) (c : route)
    : result JSONResponse :=
  match c with
  | AddUser user_data => add_user send status_error_message user_data
  | DeleteUser user_id => delete_user send status_error_message user_id
  | GetUser user_id => get_user send status_error_message user_id
  | GetAllUsers => get_all_users send status_error_message
  end.

(* ================================================================== *)
(** * The application *)
(* ================================================================== *)

(** The source registers the four routes on [app = FastAPI()] and
    installs no exception handler of its own: what a request gets back
    when something fails is decided by FastAPI and Starlette.  Their part
    is written out here, for a request whose body is a JSON object and
    whose path carries an integer. *)

(** One entry of the [detail] of a 422: where the error is ([loc]), what
    it is (pydantic's [type], [msg] and [ctx]), and the value that was
    given ([input]). *)
Record ErrorLine := {
  line_loc : list string;
  line_error : field_error;
  line_input : Json
}.

(** The entry for a failed field of the body.  Its [input] is the value
    given for the field; for a field that is not there, the body. *)
Definition line_of (b : body) (l : string * field_error) : ErrorLine :=
  {| line_loc := ["body"; fst l];
     line_error := snd l;
     line_input := match get (fst l) b with
                   | Some j => j
                   | None => JObj b
                   end |}.

(** What a request gets back. *)
Inductive answer :=
| Answered (response : JSONResponse)
  (** the [JSONResponse] that the route returned *)
| Detailed (status : Z) (detail : Detail)
  (** the body [{"detail": detail}] with the status of an [HTTPException] *)
| Bodiless (status : Z)
  (** that status alone, without a body *)
| Unprocessable (detail : list ErrorLine)
  (** status 422 with the body [{"detail": [entries]}] *)
| InternalServerError
  (** status 500 with the plain text [Internal Server Error] *)
| NoAnswer (e : exn).
  (** nothing: the exception is no [Exception] and leaves the application *)

(** [fastapi.utils.is_body_allowed_for_status_code]. *)
Definition is_body_allowed_for_status_code (status_code : Z) : bool :=
  negb ((status_code <? 200)%Z || (status_code =? 204)%Z
        || (status_code =? 205)%Z || (status_code =? 304)%Z).

(** [fastapi.exception_handlers.http_exception_handler]. *)
Definition http_exception_handler (status : Z) (detail : Detail) : answer :=
  if negb (is_body_allowed_for_status_code status) then Bodiless status
  else Detailed status detail.

(** An exception that the request validation or a route lets through:
    an [Exception] is answered by the server-error middleware. *)
Definition server_error (e : exn) : answer :=
  if isinstance e ExcClass.Exception then InternalServerError
  else NoAnswer e.

(** The way back of what a route returned or raised. *)
Definition deliver (r : result JSONResponse) : answer :=
  match r with
  | Return response => Answered response
  | Raise (HTTPException status detail) => http_exception_handler status detail
  | Raise e => server_error e
  end.

(** The requests of the four routes. *)
Inductive http_request :=
| POST_add_user (b : body)
| DELETE_delete_user (user_id : Z)
| GET_get_user (user_id : Z)
| GET_get_all_users.

Section Application.

Variable U : UnicodeData.
Variable P : Pydantic.
Variable send : Request -> result Response.
Variable status_error_message : Response -> string.

(** The body of [POST /add_user] is validated as a [UserCreate] before
    the route is called; a [ValidationError] is answered with its lines,
    without calling the route. *)
Definition app (rq : http_request) : answer :=
  match rq with
  | POST_add_user b =>
      match UserCreate_validate U P b with
      | Valid user_data =>
          deliver (add_user send status_error_message user_data)
      | Invalid errors => Unprocessable (map (line_of b) errors)
      | Crashed e => server_error e
      end
  | DELETE_delete_user user_id =>
      deliver (delete_user send status_error_message user_id)
  | GET_get_user user_id =>
      deliver (get_user send status_error_message user_id)
  | GET_get_all_users =>
      deliver (get_all_users send status_error_message)
  end.

End Application.

(* ================================================================== *)
(** * The vocabulary of the specification *)
(* ================================================================== *)

(** ** Passwords *)

(** The five rules of a password, in the order of the specification. *)
Inductive password_rule :=
| LengthRule | DigitRule | UppercaseRule | LowercaseRule | SpecialRule.

Definition rank (r : password_rule) : nat :=
  match r with
  | LengthRule => 0
  | DigitRule => 1
  | UppercaseRule => 2
  | LowercaseRule => 3
  | SpecialRule => 4
  end.

Definition rule_message (r : password_rule) : string :=
  match r with
  | LengthRule => password_length_message
  | DigitRule => password_digit_message
  | UppercaseRule => password_upper_message
  | LowercaseRule => password_lower_message
  | SpecialRule => password_special_message
  end.

(** The characters the pattern of the source takes for special: the
    twenty of its class, the backslash not among them. *)
Definition special_set : pystr := lit "@_!#$%^&*()<>?/|}{~:".

Definition is_special (c : char) : bool := existsb (N.eqb c) special_set.

(** ** Usernames *)

(** The class [[A-Za-z0-9._]]. *)
Definition username_char (c : char) : bool :=
  between 65 90 c || between 97 122 c || between 48 57 c
  || (c =? 46) || (c =? 95).

Definition is_dot (c : char) : bool := existsb (N.eqb c) (lit ".").
Definition is_underscore (c : char) : bool := existsb (N.eqb c) (lit "_").

Definition is_nil (t : pystr) : bool :=
  match t with
  | [] => true
  | _ => false
  end.

(** Where [$] holds: at the end, or before a last newline. *)
Definition at_dollar (t : pystr) : bool :=
  match t with
  | [] => true
  | [c] => c =? 10
  | _ => false
  end.

(** A run of [a] and then a run of [b] up to [$]. *)
Definition two_runs (a b : char -> bool) (v : pystr) : bool :=
  match v with
  | c :: t =>
      a c &&
      match drop_while a t with
      | d :: u => b d && at_dollar (drop_while b u)
      | [] => false
      end
  | [] => false
  end.

(** What the lookahead of [username_re] excludes. *)
Definition excluded_fillers (v : pystr) : bool :=
  two_runs is_dot is_underscore v || two_runs is_underscore is_dot v.

(** ** Names *)

Section Vocabulary.

Variable U : UnicodeData.

Definition satisfies (r : password_rule) (v : pystr) : bool :=
  match r with
  | LengthRule => (8 <=? length v)%nat
  | DigitRule => existsb (isdigit U) v
  | UppercaseRule => existsb (isupper U) v
  | LowercaseRule => existsb (islower U) v
  | SpecialRule => existsb is_special v
  end.

(** [r] is the first rule, in the order above, that [v] violates. *)
Definition first_violation (v : pystr) (r : password_rule) : Prop :=
  satisfies r v = false /\
  forall r', (rank r' < rank r)%nat -> satisfies r' v = true.

(** Every run of whitespace becomes one space. *)
Fixpoint collapse_ws (v : pystr) : pystr :=
  match v with
  | [] => []
  | c :: t =>
      if isspace U c then
        match t with
        | [] => [32]
        | c' :: _ => if isspace U c' then collapse_ws t else 32 :: collapse_ws t
        end
      else c :: collapse_ws t
  end.

(** The normal form of a name in the words of the specification:
    collapse the runs of whitespace, then trim both ends. *)
Definition normalize_name (v : pystr) : pystr := strip U (collapse_ws v).

Definition letters_and_spaces (v : pystr) : bool :=
  forallb (fun c => isalpha U c || (c =? 32)) v.

(** [rstrip] by recursion from the left, for the proofs. *)
Fixpoint rstrip_rec (v : pystr) : pystr :=
  match v with
  | [] => []
  | c :: t =>
      match rstrip_rec t with
      | [] => if isspace U c then [] else [c]
      | r => c :: r
      end
  end.

End Vocabulary.

(** ** The matcher *)

(** A repeated class, greedy, by recursion on the subject. *)
Fixpoint greedy (p : char -> bool) (A : Type) (i : nat) (s : pystr)
    (k : cont A) : option A :=
  match s with
  | c :: t =>
      if p c then
        match greedy p A (S i) t k with
        | Some a => Some a
        | None => k (S i) t
        end
      else None
  | [] => None
  end.

(** The continuation of [fullmatch]. *)
Definition at_end : cont unit :=
  fun _ t => match t with [] => Some tt | _ => None end.

(** ** The model *)

Definition no_crash {A} (x : validation A) : Prop :=
  match x with
  | Crashed _ => False
  | _ => True
  end.

(** The validator raises nothing but [ValueError]. *)
Definition value_errors_only {A B} (validator : A -> result B) : Prop :=
  forall a,
    match validator a with
    | Return _ => True
    | Raise e => isinstance e ExcClass.ValueError = true
    end.

(** ** The proxy *)


Definition error_detail (message kind : string) : Detail :=
  DDict [("error", message); ("type", kind)].


(** The status and the detail with which a result reaches the caller. *)
Definition surfaced {A} (r : result A) : option (Z * Detail) :=
  match r with
  | Raise (HTTPException s d) => Some (s, d)
  | _ => None
  end.

Definition is_2xx (s : Z) : bool := ((200 <=? s) && (s <=? 299))%Z.

Definition unavailable : Detail :=
  error_detail "Postgres service unavailable" "connection_error".

Definition internal_error : Detail :=
  error_detail "Internal server error" "unexpected_error".

Definition downstream_error (message : string) : Detail :=
  error_detail ("Postgres service returned error: " ++ message) "http_error".

(** The one call a route makes. *)
Definition request_of (c : route) : Request :=
  match c with
  | AddUser user_data =>
      {| method := "post";
         url := POSTGRES_SERVICE_URL ++ "/add_user";
         json := Some user_data |}
  | DeleteUser user_id =>
      {| method := "delete";
         url := POSTGRES_SERVICE_URL ++ "/delete_user/" ++ string_of_Z user_id;
         json := None |}
  | GetUser user_id =>
      {| method := "get";
         url := POSTGRES_SERVICE_URL ++ "/get_user/" ++ string_of_Z user_id;
         json := None |}
  | GetAllUsers =>
      {| method := "get";
         url := POSTGRES_SERVICE_URL ++ "/get_all_users";
         json := None |}
  end.

(** ** Further vocabulary *)

Section Shapes.

Variable U : UnicodeData.

(** Every whitespace character is a space and no other whitespace
    follows it. *)
Fixpoint single_spaced (v : pystr) : bool :=
  match v with
  | [] => true
  | c :: t =>
      (if isspace U c then
         (c =? 32) &&
         match t with
         | c' :: _ => negb (isspace U c')
         | [] => true
         end
       else true)
      && single_spaced t
  end.

End Shapes.

(** The verdict on a username without the matcher and without the
    Unicode tables. *)
Definition username_verdict (v : pystr) : result pystr :=
  if is_nil v || negb (forallb username_char v) || excluded_fillers v then
    Raise (ValueError username_chars_message)
  else if forallb ascii_isdigit v then
    Raise (ValueError username_digits_message)
  else Return v.


(** [l] is [names] with some of its members left out. *)
Fixpoint subsequence (l names : list string) : bool :=
  match l, names with
  | [], _ => true
  | _ :: _, [] => false
  | x :: l', n :: names' =>
      if String.eqb x n then subsequence l' names'
      else subsequence l names'
  end.

(** The id that a decimal text stands for. *)
Definition Z_of_string (s : string) : option Z :=
  option_map Z.of_int (NilZero.int_of_string s).

(** The lines that a validation reports. *)
Definition lines {A} (x : validation A) : list (string * field_error) :=
  match x with
  | Invalid errs => errs
  | _ => []
  end.

(** The six fields of [UserCreate_validate], one by one. *)
Section Fields.

Variable U : UnicodeData.
Variable P : Pydantic.

Definition username_field (b : body) : validation (option pystr) :=
  field "username" (Some None)
    (fun j => after "username" (str_schema (Some 2%nat) (Some 50%nat) j)
                (fun v => u <- validate_username U v ;; Return (Some u))) b.

Definition password_field (b : body) : validation pystr :=
  field "password" None
    (fun j => after "password" (str_schema None None j)
                (validate_password U)) b.

Definition name_field (b : body) : validation (option pystr) :=
  field "name" (Some None)
    (fun j => after "name"
                (nullable (str_schema (Some 2%nat) (Some 50%nat)) j)
                (validate_name U)) b.

Definition age_field (b : body) : validation (option Z) :=
  field "age" (Some None)
    (fun j => after "age" (nullable (int_schema P 0 150) j) Return) b.

Definition email_field (b : body) : validation (option pystr) :=
  field "email" (Some None)
    (fun j => after "email" (nullable (email_schema P) j) Return) b.

Definition role_field (b : body) : validation (option pystr) :=
  field "role" (Some (Some (lit "user")))
    (fun j => after "role" (nullable (str_schema None None) j)
                (fun v => r <- validate_role U v ;; Return (Some r))) b.

End Fields.

(** ** The application *)



(* ================================================================== *)
(** * Facts about the exception classes *)
(* ================================================================== *)

(** The walk up the hierarchy reaches the root from every class. *)
Lemma every_class_is_a_BaseException c :
  ExcClass.issubclass c ExcClass.BaseException = true.
Proof. destruct c; reflexivity. Qed.

(** No timeout of the client is a [ConnectError]. *)
Lemma timeout_is_no_ConnectError c :
  ExcClass.issubclass c ExcClass.TimeoutException = true ->
  ExcClass.issubclass c ExcClass.ConnectError = false.
Proof. destruct c; intros H; try discriminate H; reflexivity. Qed.

(** [issubclass] is the reflexive and transitive closure of [base]. *)
Lemma issubclass_base c b target :
  ExcClass.base c = Some b ->
  ExcClass.issubclass b target = true ->
  ExcClass.issubclass c target = true.
Proof.
  destruct c; simpl; intros Hb; try discriminate Hb; injection Hb as <-;
    destruct target; intros H; try discriminate H; reflexivity.
Qed.

(* ================================================================== *)
(** * Facts about the matcher *)
(* ================================================================== *)

Lemma greedy_cons p A i c t (k : cont A) :
  greedy p A i (c :: t) k =
  if p c then
    match greedy p A (S i) t k with
    | Some a => Some a
    | None => k (S i) t
    end
  else None.
Proof. reflexivity. Qed.

Lemma repeat_greedy_cls p A k :
  forall fuel s i, (length s <= fuel)%nat ->
    repeat_greedy A (run (Cls p) A) k fuel i s = greedy p A i s k.
Proof.
  induction fuel as [|f IH]; intros s i Hlen.
  - destruct s as [|c t]; [reflexivity | simpl in Hlen; lia].
  - destruct s as [|c t]; [reflexivity|].
    simpl. destruct (p c); [|reflexivity].
    assert (Hlt : (length t <? S (length t))%nat = true)
      by (apply Nat.ltb_lt; lia).
    rewrite Hlt, IH by (simpl in Hlen; lia). reflexivity.
Qed.

(** The repetition of a class never runs out of fuel. *)
Lemma run_plus_cls p A i s k :
  run (Plus (Cls p)) A i s k = greedy p A i s k.
Proof. simpl. apply repeat_greedy_cls. lia. Qed.

Lemma greedy_ext p A (k1 k2 : cont A) :
  (forall j t, k1 j t = k2 j t) ->
  forall s i, greedy p A i s k1 = greedy p A i s k2.
Proof.
  intros Hk. induction s as [|c t IH]; intros i; [reflexivity|].
  rewrite !greedy_cons, IH, Hk. reflexivity.
Qed.

Lemma greedy_stuck p A i s k :
  match s with c :: _ => p c = false | [] => True end ->
  greedy p A i s k = None.
Proof.
  destruct s as [|c t]; [reflexivity|]. simpl. intros ->. reflexivity.
Qed.

(** When what follows cannot start with a character of the class, the
    longest run is the only one to try. *)
Lemma greedy_commit p A (k : cont A) :
  (forall j c t, p c = true -> k j (c :: t) = None) ->
  forall t c i, p c = true ->
    exists j, greedy p A i (c :: t) k = k j (drop_while p t).
Proof.
  intros Hk. induction t as [|c' t' IH]; intros c i Hc.
  - exists (S i). simpl. rewrite Hc. reflexivity.
  - destruct (p c') eqn:Hc'.
    + destruct (IH c' (S i) Hc') as [j Hj]. exists j.
      rewrite greedy_cons, Hc, Hj, (Hk (S i) c' t' Hc').
      cbn [drop_while]. rewrite Hc'.
      destruct (k j (drop_while p t')); reflexivity.
    + exists (S i). simpl. rewrite Hc, Hc'. reflexivity.
Qed.

(** With a continuation that always accepts, the longest run is taken. *)
Lemma greedy_longest p : forall t c i,
  p c = true ->
  exists j, greedy p (nat * pystr) i (c :: t) (fun j t => Some (j, t))
            = Some (j, drop_while p t).
Proof.
  induction t as [|c' t' IH]; intros c i Hc.
  - exists (S i). simpl. rewrite Hc. reflexivity.
  - destruct (p c') eqn:Hc'.
    + destruct (IH c' (S i) Hc') as [j Hj]. exists j.
      rewrite greedy_cons, Hc, Hj. simpl. rewrite Hc'. reflexivity.
    + exists (S i). simpl. rewrite Hc, Hc'. reflexivity.
Qed.

Lemma greedy_to_end p : forall v i,
  is_some (greedy p unit i v at_end) = negb (is_nil v) && forallb p v.
Proof.
  induction v as [|c t IH]; intros i; [reflexivity|].
  rewrite greedy_cons. cbn [is_nil negb forallb andb].
  destruct (p c); [|reflexivity]. cbn [andb].
  destruct t as [|c' t']; [reflexivity|].
  pose proof (IH (S i)) as H. cbn [is_nil negb andb] in H. rewrite <- H.
  destruct (greedy p unit (S i) (c' :: t') at_end); reflexivity.
Qed.

Lemma run_eos_at_end j t : run Eos unit j t at_end = at_end j t.
Proof.
  destruct t as [|c [|c' t']]; simpl; try reflexivity.
  destruct (c =? 10); reflexivity.
Qed.

Lemma run_eos_any i t :
  is_some (run Eos unit i t (fun _ _ => Some tt)) = at_dollar t.
Proof.
  destruct t as [|c [|c' t']]; simpl; try reflexivity.
  destruct (c =? 10); reflexivity.
Qed.

Lemma drop_while_length p s : (length (drop_while p s) <= length s)%nat.
Proof.
  induction s as [|c t IH]; simpl; [lia|].
  destruct (p c); simpl; lia.
Qed.

Lemma drop_while_head p s :
  match drop_while p s with c :: _ => p c = false | [] => True end.
Proof.
  induction s as [|c t IH]; simpl; [exact I|].
  destruct (p c) eqn:Hc; [exact IH | exact Hc].
Qed.

Lemma drop_while_snoc p (l : pystr) c :
  drop_while p (l ++ [c])%list =
  match drop_while p l with
  | [] => if p c then [] else [c]
  | r => (r ++ [c])%list
  end.
Proof.
  induction l as [|a l IH]; simpl; [destruct (p c); reflexivity|].
  destruct (p a); [exact IH | reflexivity].
Qed.

Lemma drop_while_repeat p a m (s : pystr) :
  p a = true -> drop_while p (repeat a m ++ s)%list = drop_while p s.
Proof.
  intros Ha. induction m as [|m IH]; [reflexivity|].
  simpl. rewrite Ha. exact IH.
Qed.

Lemma drop_while_split p a :
  (forall c, p c = true -> c = a) ->
  forall s : pystr, exists m, s = (repeat a m ++ drop_while p s)%list.
Proof.
  intros Hp. induction s as [|c t [m IH]]; [exists 0%nat; reflexivity|].
  simpl. destruct (p c) eqn:Hc.
  - exists (S m). rewrite (Hp c Hc). simpl. f_equal. exact IH.
  - exists 0%nat. reflexivity.
Qed.

Lemma search_from_cls p : forall s i, search_from (Cls p) i s = existsb p s.
Proof.
  induction s as [|c t IH]; intros i; [reflexivity|].
  simpl. rewrite IH. destruct (p c); reflexivity.
Qed.

Lemma search_cls p v : search (Cls p) v = existsb p v.
Proof. apply search_from_cls. Qed.

(** The two runs of the lookahead, as the matcher finds them. *)
Lemma two_runs_correct a b i v :
  (forall c, a c = true -> b c = false) ->
  (forall c, b c = true -> (c =? 10) = false) ->
  is_some (run (Cat (Cat (Plus (Cls a)) (Plus (Cls b))) Eos) unit i v
             (fun _ _ => Some tt))
  = two_runs a b v.
Proof.
  intros Hab Hb.
  change (is_some (run (Plus (Cls a)) unit i v
                     (fun j t => run (Plus (Cls b)) unit j t
                        (fun j' t' => run Eos unit j' t' (fun _ _ => Some tt))))
          = two_runs a b v).
  rewrite run_plus_cls.
  destruct v as [|c t]; [reflexivity|].
  unfold two_runs. destruct (a c) eqn:Hc.
  2:{ simpl. rewrite Hc. reflexivity. }
  destruct (greedy_commit a unit
              (fun j t => run (Plus (Cls b)) unit j t
                 (fun j' t' => run Eos unit j' t' (fun _ _ => Some tt))))
    with (t := t) (c := c) (i := i) as [j Hj].
  { intros j' c' t' Hc'. rewrite run_plus_cls. simpl.
    rewrite (Hab c' Hc'). reflexivity. }
  { exact Hc. }
  rewrite Hj, run_plus_cls. cbn [andb].
  destruct (drop_while a t) as [|d u]; [reflexivity|].
  destruct (b d) eqn:Hd.
  2:{ simpl. rewrite Hd. reflexivity. }
  destruct (greedy_commit b unit
              (fun j' t' => run Eos unit j' t' (fun _ _ => Some tt)))
    with (t := u) (c := d) (i := j) as [j2 Hj2].
  { intros j' c' t' Hc'. simpl. destruct t'; [|reflexivity].
    rewrite (Hb c' Hc'). reflexivity. }
  { exact Hd. }
  rewrite Hj2. cbn [andb]. apply run_eos_any.
Qed.

(** The strings of two runs, when no newline is around. *)
Lemma two_runs_shape a b (pa pb : char -> bool) v :
  (forall c, pa c = true <-> c = a) ->
  (forall c, pb c = true <-> c = b) ->
  a <> b ->
  forallb (fun c => negb (c =? 10)) v = true ->
  (two_runs pa pb v = true <->
   exists m n, v = (repeat a (S m) ++ repeat b (S n))%list).
Proof.
  intros Ha Hb Hne Hnl. split.
  - destruct v as [|c t]; [discriminate|]. unfold two_runs.
    intros H. apply andb_true_iff in H. destruct H as [Hc H].
    apply Ha in Hc. subst c.
    destruct (drop_while_split pa a (fun c Hc => proj1 (Ha c) Hc) t) as [m Hm].
    destruct (drop_while pa t) as [|d u]; [discriminate|].
    apply andb_true_iff in H. destruct H as [Hd H].
    apply Hb in Hd. subst d.
    destruct (drop_while_split pb b (fun c Hc => proj1 (Hb c) Hc) u) as [n Hn].
    assert (Hrest : drop_while pb u = []).
    { destruct (drop_while pb u) as [|x [|y r]] eqn:E;
        [reflexivity | | discriminate].
      exfalso. simpl in H. apply N.eqb_eq in H. subst x.
      rewrite Hm, Hn in Hnl. simpl in Hnl.
      rewrite forallb_app in Hnl. simpl in Hnl.
      rewrite forallb_app in Hnl. simpl in Hnl.
      rewrite !andb_false_r in Hnl. discriminate. }
    rewrite Hrest, app_nil_r in Hn.
    exists m, n. rewrite Hm, Hn. reflexivity.
  - intros (m & n & ->). unfold two_runs.
    assert (Haa : pa a = true) by (apply Ha; reflexivity).
    assert (Hbb : pb b = true) by (apply Hb; reflexivity).
    assert (Hab : pa b = false).
    { destruct (pa b) eqn:E; [|reflexivity].
      apply Ha in E. congruence. }
    simpl. rewrite Haa, drop_while_repeat by assumption. simpl.
    rewrite Hab, Hbb. simpl.
    replace (drop_while pb (repeat b n)) with (@nil char); [reflexivity|].
    clear - Hbb. induction n; simpl; [reflexivity|]. rewrite Hbb. exact IHn.
Qed.

(** ** Bracketed classes *)

Lemma between_same a c : between a a c = (c =? a).
Proof.
  unfold between.
  destruct (N.leb_spec a c), (N.leb_spec c a), (N.eqb_spec c a);
    simpl; try reflexivity; lia.
Qed.

Lemma existsb_singletons c (items : list (char * char)) :
  forallb (fun r => fst r =? snd r) items = true ->
  existsb (fun r => between (fst r) (snd r) c) items
  = existsb (N.eqb c) (map fst items).
Proof.
  induction items as [|[a b] rest IH]; simpl; [reflexivity|].
  intros H. apply andb_true_iff in H. destruct H as [Hab Hrest].
  apply N.eqb_eq in Hab. subst b.
  rewrite between_same, IH by assumption. reflexivity.
Qed.

(** The class of the password pattern is the set of twenty characters,
    the backslash not among them. *)
Lemma special_class c :
  in_bracket "@_!#$%^&*()<>?/\|}{~:" c = is_special c.
Proof.
  unfold in_bracket, is_special.
  rewrite existsb_singletons by (vm_compute; reflexivity).
  reflexivity.
Qed.

Lemma username_class c : in_bracket "A-Za-z0-9._" c = username_char c.
Proof.
  unfold in_bracket, username_char.
  change (bracket_items (lit "A-Za-z0-9._"))
    with [(65, 90); (97, 122); (48, 57); (46, 46); (95, 95)].
  cbn [existsb fst snd]. rewrite !between_same, orb_false_r, !orb_assoc.
  reflexivity.
Qed.

Lemma is_dot_spec c : is_dot c = true <-> c = 46.
Proof.
  unfold is_dot. simpl. rewrite orb_false_r. apply N.eqb_eq.
Qed.

Lemma is_underscore_spec c : is_underscore c = true <-> c = 95.
Proof.
  unfold is_underscore. simpl. rewrite orb_false_r. apply N.eqb_eq.
Qed.

(* ================================================================== *)
(** * Passwords *)
(* ================================================================== *)

Lemma search_special_chars v : search special_chars v = existsb is_special v.
Proof.
  unfold special_chars, bracket. rewrite search_cls.
  induction v as [|c t IH]; simpl; [reflexivity|].
  rewrite special_class, IH. reflexivity.
Qed.

Lemma rule_message_injective r1 r2 :
  rule_message r1 = rule_message r2 -> r1 = r2.
Proof.
  destruct r1, r2; intros H; try reflexivity; vm_compute in H; discriminate.
Qed.

(** [r] is the first violated rule once the rules before it are known to
    hold and [r] itself to fail. *)
Ltac first_is r :=
  exists r; split; [assumption|];
  let r' := fresh "r" in
  let Hlt := fresh "Hlt" in
  intros r' Hlt; destruct r'; simpl in Hlt; try lia; assumption.

Section Passwords.

Variable U : UnicodeData.

(** The code is the chain of the five rules. *)
Lemma validate_password_rules v :
  validate_password U v =
  if negb (satisfies U LengthRule v) then
    Raise (ValueError (rule_message LengthRule))
  else if negb (satisfies U DigitRule v) then
    Raise (ValueError (rule_message DigitRule))
  else if negb (satisfies U UppercaseRule v) then
    Raise (ValueError (rule_message UppercaseRule))
  else if negb (satisfies U LowercaseRule v) then
    Raise (ValueError (rule_message LowercaseRule))
  else if negb (satisfies U SpecialRule v) then
    Raise (ValueError (rule_message SpecialRule))
  else Return v.
Proof.
  unfold validate_password, satisfies, rule_message.
  rewrite search_special_chars.
  replace (length v <? 8)%nat with (negb (8 <=? length v)%nat)
    by (destruct (Nat.leb_spec 8 (length v)), (Nat.ltb_spec (length v) 8);
        simpl; try reflexivity; lia).
  reflexivity.
Qed.

Lemma first_violation_raises v r :
  first_violation U v r ->
  validate_password U v = Raise (ValueError (rule_message r)).
Proof.
  intros [Hr Hbefore]. rewrite validate_password_rules.
  destruct r;
    repeat match goal with
    | |- context [satisfies U ?r' v] =>
        first [ rewrite Hr | rewrite (Hbefore r') by (simpl; lia) ]
    end;
    cbn [negb]; reflexivity.
Qed.

Lemma all_or_first_violation v :
  (forall r, satisfies U r v = true) \/ exists r, first_violation U v r.
Proof.
  destruct (satisfies U LengthRule v) eqn:H0; [|right; first_is LengthRule].
  destruct (satisfies U DigitRule v) eqn:H1; [|right; first_is DigitRule].
  destruct (satisfies U UppercaseRule v) eqn:H2;
    [|right; first_is UppercaseRule].
  destruct (satisfies U LowercaseRule v) eqn:H3;
    [|right; first_is LowercaseRule].
  destruct (satisfies U SpecialRule v) eqn:H4; [|right; first_is SpecialRule].
  left. intros r; destruct r; assumption.
Qed.

Lemma violation_has_first v r :
  satisfies U r v = false -> exists r0, first_violation U v r0.
Proof.
  intros Hr. destruct (all_or_first_violation v) as [Hall | H]; [|exact H].
  rewrite Hall in Hr. discriminate.
Qed.

(** What the code accepts: the five rules, the special characters being
    those of [special_set]. *)
Lemma validate_password_accepts v :
  validate_password U v = Return v <-> forall r, satisfies U r v = true.
Proof.
  split.
  - intros H. destruct (all_or_first_violation v) as [Hall | [r Hr]];
      [exact Hall|].
    rewrite (first_violation_raises v r Hr) in H. discriminate.
  - intros H. rewrite validate_password_rules, !H. reflexivity.
Qed.

Lemma validate_password_outcome v :
  validate_password U v = Return v \/
  exists r,
    first_violation U v r /\
    validate_password U v = Raise (ValueError (rule_message r)).
Proof.
  destruct (all_or_first_violation v) as [Hall | [r Hr]].
  - left. apply validate_password_accepts. exact Hall.
  - right. exists r. split; [exact Hr | apply first_violation_raises; exact Hr].
Qed.

Example validate_password_example :
  validate_password U (lit "Abcd123!") = Return (lit "Abcd123!").
Proof. reflexivity. Qed.

End Passwords.

(** C3 (the code departs from the claim).  A password whose only special
    character is the backslash has the length, a digit, an uppercase and a
    lowercase letter, and the backslash is in the set that the error
    message of the code shows; yet [validate_password] rejects it with the
    special-character error, because the class of the pattern reads the
    backslash as an escape of the bar. *)
Theorem validate_password_rejects_backslash :
  forall U,
    let v := lit "Abcdefg\1" in
    satisfies U LengthRule v = true /\
    satisfies U DigitRule v = true /\
    satisfies U UppercaseRule v = true /\
    satisfies U LowercaseRule v = true /\
    existsb (N.eqb 92) v = true /\
    existsb (N.eqb 92) (lit password_special_message) = true /\
    is_special 92 = false /\
    validate_password U v = Raise (ValueError password_special_message).
Proof. intros U. vm_compute. repeat split; reflexivity. Qed.

(** C4.  An invalid password gets the error of exactly one rule, the first
    it violates in the order length, digit, uppercase, lowercase, special
    character; ["abc"] gets the length error although it also lacks a
    digit, an uppercase letter and a special character, and ["Abc12345"]
    gets the special-character error. *)
Theorem validate_password_reports_first_violation :
  (forall U v r,
     satisfies U r v = false ->
     exists r0,
       first_violation U v r0 /\
       validate_password U v = Raise (ValueError (rule_message r0)) /\
       forall r1,
         validate_password U v = Raise (ValueError (rule_message r1)) ->
         r1 = r0) /\
  (forall U,
     validate_password U (lit "abc") = Raise (ValueError password_length_message) /\
     satisfies U DigitRule (lit "abc") = false /\
     satisfies U UppercaseRule (lit "abc") = false /\
     satisfies U SpecialRule (lit "abc") = false) /\
  (forall U,
     validate_password U (lit "Abc12345")
     = Raise (ValueError password_special_message) /\
     first_violation U (lit "Abc12345") SpecialRule).
Proof.
  split; [|split].
  - intros U v r Hr.
    destruct (violation_has_first U v r Hr) as [r0 H0].
    exists r0. split; [assumption|].
    rewrite (first_violation_raises U v r0 H0). split; [reflexivity|].
    intros r1 H1. apply rule_message_injective.
    unfold ValueError in H1. congruence.
  - intros U. vm_compute. repeat split; reflexivity.
  - intros U. split; [vm_compute; reflexivity|].
    split; [vm_compute; reflexivity|].
    intros [] Hlt; simpl in Hlt; try lia; vm_compute; reflexivity.
Qed.

(* ================================================================== *)
(** * Usernames *)
(* ================================================================== *)

Lemma forallb_username_class v :
  forallb (in_bracket "A-Za-z0-9._") v = forallb username_char v.
Proof.
  induction v as [|c t IH]; simpl; [reflexivity|].
  rewrite username_class, IH. reflexivity.
Qed.

(** The pattern, read off the matcher. *)
Lemma fullmatch_username_re v :
  fullmatch username_re v =
  negb (excluded_fillers v) && (negb (is_nil v) && forallb username_char v).
Proof.
  rewrite <- forallb_username_class.
  unfold fullmatch, username_re.
  change (run (Cat Bos ?r) unit 0 v ?k) with (run r unit 0 v k).
  match goal with
  | |- is_some (run (Cat (NotAhead (Cat (Alt ?a1 ?a2) Eos)) ?rest) unit 0 v ?k)
       = ?rhs =>
      change (is_some
                (match
                   match run (Cat a1 Eos) unit 0 v (fun _ _ => Some tt) with
                   | Some x => Some x
                   | None => run (Cat a2 Eos) unit 0 v (fun _ _ => Some tt)
                   end
                 with
                 | Some _ => None
                 | None => run rest unit 0 v k
                 end) = rhs)
  end.
  assert (Hdu : forall c, is_dot c = true -> is_underscore c = false).
  { intros c H. apply is_dot_spec in H. subst c. reflexivity. }
  assert (Hud : forall c, is_underscore c = true -> is_dot c = false).
  { intros c H. apply is_underscore_spec in H. subst c. reflexivity. }
  assert (Hd : forall c, is_dot c = true -> (c =? 10) = false).
  { intros c H. apply is_dot_spec in H. subst c. reflexivity. }
  assert (Hu : forall c, is_underscore c = true -> (c =? 10) = false).
  { intros c H. apply is_underscore_spec in H. subst c. reflexivity. }
  pose proof (two_runs_correct is_dot is_underscore 0 v Hdu Hu) as H1.
  pose proof (two_runs_correct is_underscore is_dot 0 v Hud Hd) as H2.
  unfold chr. fold is_dot is_underscore.
  unfold excluded_fillers. rewrite <- H1, <- H2.
  assert (Hrest :
    is_some (run (Cat (Plus (bracket "A-Za-z0-9._")) Eos) unit 0 v
               (fun _ t => match t with [] => Some tt | _ => None end))
    = negb (is_nil v) && forallb (in_bracket "A-Za-z0-9._") v).
  { change (is_some (run (Plus (Cls (in_bracket "A-Za-z0-9._"))) unit 0 v
                       (fun j t => run Eos unit j t at_end))
            = negb (is_nil v) && forallb (in_bracket "A-Za-z0-9._") v).
    rewrite run_plus_cls.
    rewrite (greedy_ext _ _ _ at_end run_eos_at_end).
    apply greedy_to_end. }
  rewrite <- Hrest.
  destruct (run (Cat (Cat (Plus (Cls is_dot)) (Plus (Cls is_underscore))) Eos)
              unit 0 v (fun _ _ => Some tt)) as [[]|];
    [reflexivity|].
  destruct (run (Cat (Cat (Plus (Cls is_underscore)) (Plus (Cls is_dot))) Eos)
              unit 0 v (fun _ _ => Some tt)) as [[]|];
    reflexivity.
Qed.

Lemma username_char_no_newline v :
  forallb username_char v = true ->
  forallb (fun c => negb (c =? 10)) v = true.
Proof.
  induction v as [|c t IH]; simpl; [reflexivity|].
  intros H. apply andb_true_iff in H. destruct H as [Hc Ht].
  rewrite (IH Ht), andb_true_r.
  destruct (N.eqb_spec c 10) as [->|]; [discriminate Hc | reflexivity].
Qed.

(** The excluded strings: some dots and then some underscores, or some
    underscores and then some dots. *)
Lemma excluded_fillers_shape v :
  forallb username_char v = true ->
  (excluded_fillers v = true <->
   exists m n,
     v = (repeat 46 (S m) ++ repeat 95 (S n))%list \/
     v = (repeat 95 (S m) ++ repeat 46 (S n))%list).
Proof.
  intros Hv. apply username_char_no_newline in Hv.
  pose proof (two_runs_shape 46 95 is_dot is_underscore v
                is_dot_spec is_underscore_spec ltac:(discriminate) Hv) as H1.
  pose proof (two_runs_shape 95 46 is_underscore is_dot v
                is_underscore_spec is_dot_spec ltac:(discriminate) Hv) as H2.
  unfold excluded_fillers. rewrite orb_true_iff, H1, H2.
  split.
  - intros [(m & n & H) | (m & n & H)]; exists m, n; [left | right]; exact H.
  - intros (m & n & [H | H]); [left | right]; exists m, n; exact H.
Qed.

Section Usernames.

Variable U : UnicodeData.

(** What the code accepts. *)
Lemma validate_username_accepts v :
  validate_username U v = Return v <->
  v <> [] /\
  forallb username_char v = true /\
  str_isdigit U v = false /\
  excluded_fillers v = false.
Proof.
  unfold validate_username. rewrite fullmatch_username_re.
  destruct v as [|c t].
  - cbn. split; [discriminate|]. intros [H _]. congruence.
  - cbn [is_nil negb]. rewrite andb_true_l.
    destruct (excluded_fillers (c :: t)), (forallb username_char (c :: t)),
      (str_isdigit U (c :: t)); simpl; split;
      try discriminate; try (intros (_ & ? & ? & ?); discriminate).
    + intros _. repeat split. discriminate.
    + reflexivity.
Qed.

(** A username of dots alone is accepted. *)
Lemma validate_username_dots n :
  validate_username U (repeat 46 (S n)) = Return (repeat 46 (S n)).
Proof.
  apply validate_username_accepts.
  assert (Hc : forallb username_char (repeat 46 (S n)) = true).
  { induction n as [|n IH]; [reflexivity|].
    change (repeat 46 (S (S n))) with (46 :: repeat 46 (S n)).
    cbn [forallb]. rewrite IH. reflexivity. }
  split; [discriminate|]. split; [exact Hc|]. split; [reflexivity|].
  destruct (excluded_fillers (repeat 46 (S n))) eqn:E; [|reflexivity].
  exfalso. apply (excluded_fillers_shape _ Hc) in E.
  assert (Hin : forall m k (l : pystr),
             repeat 46 k = (l ++ repeat 95 (S m))%list -> False).
  { intros m k l H.
    assert (Hi : In 95 (repeat 46 k)).
    { rewrite H. apply in_or_app. right. left. reflexivity. }
    apply repeat_spec in Hi. discriminate. }
  destruct E as (m & k & [H | H]).
  - exact (Hin k _ _ H).
  - simpl in H. discriminate.
Qed.

End Usernames.

(** C1 (the code departs from the claim).  The lookahead of the pattern
    only excludes a run of dots followed by a run of underscores, or the
    reverse: ["..."], ["___"] and ["._."], and any username of dots
    alone, are made of fillers only and are accepted; ["._"] and the
    all-digit ["123"] are rejected. *)
Theorem validate_username_accepts_fillers :
  forall U,
    validate_username U (lit "...") = Return (lit "...") /\
    validate_username U (lit "___") = Return (lit "___") /\
    validate_username U (lit "._.") = Return (lit "._.") /\
    (forall n, validate_username U (repeat 46 (S n)) = Return (repeat 46 (S n))) /\
    (forall P,
       UserCreate_validate U P
         [("username", JStr (lit "...")); ("password", JStr (lit "Abcd123!"))]
       = Valid {| username := Some (lit "...");
                  password := lit "Abcd123!";
                  name := None;
                  age := None;
                  email := None;
                  role := Some (lit "user") |}) /\
    validate_username U (lit "._") = Raise (ValueError username_chars_message) /\
    validate_username U (lit "123") = Raise (ValueError username_digits_message).
Proof.
  intros U.
  split; [reflexivity|]. split; [reflexivity|]. split; [reflexivity|].
  split; [apply validate_username_dots|].
  split; [intros P; vm_compute; reflexivity|].
  split; reflexivity.
Qed.

(* ================================================================== *)
(** * Names *)
(* ================================================================== *)

Section Names.

Variable U : UnicodeData.

Lemma isspace_space : isspace U 32 = true.
Proof. reflexivity. Qed.

Lemma collapse_ws_cons2 c c' t :
  collapse_ws U (c :: c' :: t) =
  if isspace U c then
    if isspace U c' then collapse_ws U (c' :: t)
    else 32 :: collapse_ws U (c' :: t)
  else c :: collapse_ws U (c' :: t).
Proof. reflexivity. Qed.

Lemma collapse_ws_cons_other c t :
  isspace U c = false -> collapse_ws U (c :: t) = c :: collapse_ws U t.
Proof. intros H. simpl. rewrite H. reflexivity. Qed.

Lemma collapse_ws_nonempty c t : collapse_ws U (c :: t) <> [].
Proof.
  revert c. induction t as [|c' t' IH]; intros c.
  - simpl. destruct (isspace U c); discriminate.
  - rewrite collapse_ws_cons2.
    destruct (isspace U c); [|discriminate].
    destruct (isspace U c'); [apply IH | discriminate].
Qed.

(** A run of whitespace gives one space, and the scan goes on after it. *)
Lemma collapse_ws_run c t :
  isspace U c = true ->
  collapse_ws U (c :: t) = 32 :: collapse_ws U (drop_while (isspace U) t).
Proof.
  revert c. induction t as [|c' t' IH]; intros c Hc.
  - simpl. rewrite Hc. reflexivity.
  - rewrite collapse_ws_cons2, Hc. cbn [drop_while].
    destruct (isspace U c') eqn:Hc'; [apply IH; assumption | reflexivity].
Qed.

(** [re.sub] of the runs of whitespace is [collapse_ws]: the fuel of the
    scan is enough. *)
Lemma sub_from_whitespace :
  forall fuel s i,
    (length s < fuel)%nat ->
    sub_from fuel (Plus (Cls (isspace U))) (lit " ") i s = collapse_ws U s.
Proof.
  induction fuel as [|f IH]; intros s i Hlen; [lia|].
  cbn [sub_from]. rewrite run_plus_cls.
  destruct s as [|c t]; [reflexivity|].
  destruct (isspace U c) eqn:Hc.
  - destruct (greedy_longest (isspace U) t c i Hc) as [j Hj]. rewrite Hj.
    pose proof (drop_while_length (isspace U) t) as Hd.
    assert (Hlt : (length (drop_while (isspace U) t) <? length (c :: t))%nat = true)
      by (apply Nat.ltb_lt; simpl; lia).
    rewrite Hlt, IH by (simpl in Hlen; lia).
    rewrite collapse_ws_run by assumption. reflexivity.
  - rewrite greedy_stuck by assumption.
    rewrite IH by (simpl in Hlen; lia).
    simpl. rewrite Hc. reflexivity.
Qed.

Lemma sub_whitespace v :
  sub (Plus (Cls (isspace U))) (lit " ") v = collapse_ws U v.
Proof. apply sub_from_whitespace. lia. Qed.

Lemma rstrip_rec_cons c t :
  rstrip_rec U (c :: t) =
  match rstrip_rec U t with
  | [] => if isspace U c then [] else [c]
  | r => c :: r
  end.
Proof. reflexivity. Qed.

Lemma rstrip_rstrip_rec v : rstrip U v = rstrip_rec U v.
Proof.
  unfold rstrip. induction v as [|c t IH]; [reflexivity|].
  simpl. rewrite drop_while_snoc, <- IH.
  destruct (drop_while (isspace U) (rev t)) as [|a r]; simpl.
  - destruct (isspace U c); reflexivity.
  - rewrite rev_app_distr. simpl.
    destruct (rev r ++ [a])%list eqn:E; [|reflexivity].
    destruct (rev r); discriminate.
Qed.

Lemma rstrip_rec_nil_head c t :
  rstrip_rec U (c :: t) = [] -> isspace U c = true.
Proof.
  simpl. destruct (rstrip_rec U t); [|discriminate].
  destruct (isspace U c); [reflexivity | discriminate].
Qed.

Lemma rstrip_rec_head c t :
  rstrip_rec U (c :: t) <> [] -> exists r, rstrip_rec U (c :: t) = c :: r.
Proof.
  simpl. destruct (rstrip_rec U t) as [|a r].
  - destruct (isspace U c); [congruence | intros _; exists []; reflexivity].
  - intros _. exists (a :: r). reflexivity.
Qed.

Lemma rstrip_rec_keeps_head s :
  match s with c :: _ => isspace U c = false | [] => True end ->
  match rstrip_rec U s with c :: _ => isspace U c = false | [] => True end.
Proof.
  destruct s as [|c t]; [intros _; exact I|].
  intros Hc. rewrite rstrip_rec_cons, Hc.
  destruct (rstrip_rec U t); exact Hc.
Qed.

Lemma lstrip_collapse v :
  lstrip U (collapse_ws U v) = collapse_ws U (lstrip U v).
Proof.
  unfold lstrip. induction v as [|c t IH]; [reflexivity|].
  destruct (isspace U c) eqn:Hc.
  - cbn [drop_while]. rewrite Hc.
    destruct t as [|c' t']; [simpl; rewrite Hc; reflexivity|].
    rewrite collapse_ws_cons2, Hc.
    destruct (isspace U c') eqn:Hc'; [exact IH|].
    cbn [drop_while]. rewrite isspace_space. exact IH.
  - rewrite (collapse_ws_cons_other c t Hc). cbn [drop_while]. rewrite Hc.
    rewrite (collapse_ws_cons_other c t Hc). reflexivity.
Qed.

Lemma rstrip_collapse v :
  rstrip_rec U (collapse_ws U v) = collapse_ws U (rstrip_rec U v).
Proof.
  induction v as [|c t IH]; [reflexivity|].
  destruct (isspace U c) eqn:Hc.
  - destruct t as [|c' t'].
    + simpl. rewrite Hc. reflexivity.
    + rewrite collapse_ws_cons2, (rstrip_rec_cons c (c' :: t')), Hc.
      destruct (rstrip_rec U (c' :: t')) as [|a r] eqn:Er.
      * rewrite (rstrip_rec_nil_head c' t' Er). exact IH.
      * assert (Hne : rstrip_rec U (c' :: t') <> []) by congruence.
        destruct (rstrip_rec_head c' t' Hne) as [r' Hr'].
        assert (a = c') by congruence. subst a.
        rewrite collapse_ws_cons2, Hc.
        destruct (isspace U c') eqn:Hc'; [exact IH|].
        rewrite rstrip_rec_cons, IH.
        destruct (collapse_ws U (c' :: r)) eqn:E; [|reflexivity].
        exfalso. exact (collapse_ws_nonempty c' r E).
  - rewrite (collapse_ws_cons_other c t Hc), !rstrip_rec_cons, IH, Hc.
    destruct (rstrip_rec U t) as [|a r].
    + simpl. rewrite Hc. reflexivity.
    + rewrite (collapse_ws_cons_other c (a :: r) Hc).
      destruct (collapse_ws U (a :: r)) eqn:E; [|reflexivity].
      exfalso. exact (collapse_ws_nonempty a r E).
Qed.

(** Trimming after collapsing, as the specification has it, is collapsing
    after trimming, as the code has it. *)
Lemma normalize_name_code v :
  normalize_name U v = collapse_ws U (strip U v).
Proof.
  unfold normalize_name, strip.
  rewrite !rstrip_rstrip_rec, lstrip_collapse, rstrip_collapse. reflexivity.
Qed.

Lemma strip_head v :
  match strip U v with c :: _ => isspace U c = false | [] => True end.
Proof.
  unfold strip. rewrite rstrip_rstrip_rec.
  apply rstrip_rec_keeps_head. apply drop_while_head.
Qed.

(** A normalized name is empty or starts with a character that is not
    whitespace. *)
Lemma normalize_name_head v :
  match normalize_name U v with
  | c :: _ => isspace U c = false
  | [] => True
  end.
Proof. apply strip_head. Qed.

Lemma forallb_remove_spaces s :
  forallb (isalpha U) (remove_spaces s) = letters_and_spaces U s.
Proof.
  unfold remove_spaces, letters_and_spaces.
  induction s as [|c t IH]; [reflexivity|].
  simpl. destruct (c =? 32) eqn:Hc; simpl.
  - rewrite orb_true_r. exact IH.
  - rewrite orb_false_r, IH. reflexivity.
Qed.

Lemma remove_spaces_empty s :
  match s with c :: _ => isspace U c = false | [] => True end ->
  Nat.eqb (length (remove_spaces s)) 0 = Nat.eqb (length s) 0.
Proof.
  destruct s as [|c t]; [reflexivity|].
  intros Hc. unfold remove_spaces. simpl.
  destruct (c =? 32) eqn:E; [|reflexivity].
  apply N.eqb_eq in E. subst c. rewrite isspace_space in Hc. discriminate.
Qed.

Lemma validate_name_present v :
  validate_name U (Some v) =
  if negb (Nat.eqb (length (normalize_name U v)) 0)
     && letters_and_spaces U (normalize_name U v)
  then Return (Some (normalize_name U v))
  else Raise (ValueError name_message).
Proof.
  unfold validate_name, str_isalpha.
  rewrite sub_whitespace, <- normalize_name_code.
  rewrite forallb_remove_spaces.
  rewrite (remove_spaces_empty _ (normalize_name_head v)).
  destruct (negb (Nat.eqb (length (normalize_name U v)) 0)
            && letters_and_spaces U (normalize_name U v)); reflexivity.
Qed.

End Names.

(** C9, as stated, fails on a name of blanks: its normal form is empty,
    so it holds nothing but letters and spaces, and the code rejects it. *)
Lemma validate_name_rejects_blank :
  let v := lit "   " in
  letters_and_spaces ascii_only (normalize_name ascii_only v) = true /\
  validate_name ascii_only (Some v) = Raise (ValueError name_message) /\
  validate_name ascii_only (Some v)
  <> Return (Some (normalize_name ascii_only v)).
Proof. vm_compute. repeat split; try reflexivity. discriminate. Qed.

(** C9, amended.  [validate_name] maps [None] to [None]; a present name is
    normalized (every run of whitespace collapsed to one space, both ends
    trimmed) and accepted exactly when the normal form is not empty and
    holds only letters and spaces, the result being the normal form;
    ["  John   Doe  "] gives ["John Doe"] and ["John3"] is rejected. *)
Theorem validate_name_normalizes :
  forall U,
    validate_name U None = Return None /\
    (forall v,
       validate_name U (Some v) =
       if negb (Nat.eqb (length (normalize_name U v)) 0)
          && letters_and_spaces U (normalize_name U v)
       then Return (Some (normalize_name U v))
       else Raise (ValueError name_message)) /\
    validate_name U (Some (lit "  John   Doe  ")) = Return (Some (lit "John Doe")) /\
    validate_name U (Some (lit "John3")) = Raise (ValueError name_message).
Proof.
  intros U. split; [reflexivity|]. split; [apply validate_name_present|].
  split; vm_compute; reflexivity.
Qed.

(* ================================================================== *)
(** * The model *)
(* ================================================================== *)

Lemma ap_no_crash {A B} (f : validation (A -> B)) (x : validation A) :
  no_crash f -> no_crash x -> no_crash (f <*> x).
Proof. destruct f, x; simpl; tauto. Qed.

Lemma ap_crash {A B} (f : validation (A -> B)) (e : exn) :
  no_crash f -> f <*> Crashed e = Crashed e.
Proof. destruct f; simpl; tauto. Qed.

Lemma ap_valid_inv {A B} (f : validation (A -> B)) (x : validation A) b :
  f <*> x = Valid b -> exists g a, f = Valid g /\ x = Valid a /\ b = g a.
Proof.
  destruct f as [g| |], x as [a| |]; simpl; try discriminate.
  intros H. injection H as <-. exists g, a. repeat split.
Qed.

Lemma after_no_crash {A B} field_name core (validator : A -> result B) :
  value_errors_only validator -> no_crash (after field_name core validator).
Proof.
  intros Hv. unfold after. destruct core as [err|a]; [exact I|].
  specialize (Hv a). destruct (validator a); [exact I|].
  rewrite Hv. exact I.
Qed.

Lemma field_no_crash {A} field_name default (present : Json -> validation A) b :
  (forall j, no_crash (present j)) ->
  no_crash (field field_name default present b).
Proof.
  intros Hp. unfold field. destruct (get field_name b); [apply Hp|].
  destruct default; exact I.
Qed.

Lemma value_errors_only_bind {A B C} (validator : A -> result B) (g : B -> C) :
  value_errors_only validator ->
  value_errors_only (fun a => x <- validator a ;; Return (g x)).
Proof.
  intros Hv a. specialize (Hv a). destruct (validator a); simpl; assumption.
Qed.

Lemma value_errors_only_return {A} : value_errors_only (@Return A).
Proof. intros a. exact I. Qed.

Section ModelFacts.

Variable U : UnicodeData.
Variable P : Pydantic.

Lemma validate_username_value_errors : value_errors_only (validate_username U).
Proof.
  intros v. unfold validate_username.
  destruct (negb (fullmatch username_re v)); [reflexivity|].
  destruct (str_isdigit U v); [reflexivity | exact I].
Qed.

Lemma validate_password_value_errors : value_errors_only (validate_password U).
Proof.
  intros v. destruct (validate_password_outcome U v) as [-> | (r & _ & ->)];
    [exact I | reflexivity].
Qed.

Lemma validate_name_value_errors : value_errors_only (validate_name U).
Proof.
  intros [v|]; [|exact I]. rewrite validate_name_present.
  destruct (_ && _); [exact I | reflexivity].
Qed.

(** An explicit null for [role] reaches the validator and ends the
    validation with its [AttributeError], whatever the other fields. *)
Lemma role_null_crashes b :
  get "role" b = Some JNull ->
  UserCreate_validate U P b =
  Crashed (PyExc ExcClass.AttributeError
             "'NoneType' object has no attribute 'lower'").
Proof.
  intros Hrole. unfold UserCreate_validate.
  match goal with
  | |- ?f <*> field "role" ?d ?p b = _ =>
      replace (field "role" d p b)
        with (@Crashed (option pystr)
                (PyExc ExcClass.AttributeError
                   "'NoneType' object has no attribute 'lower'"))
        by (unfold field; rewrite Hrole; reflexivity);
      apply ap_crash
  end.
  repeat apply ap_no_crash; try exact I;
    apply field_no_crash; intros j; apply after_no_crash.
  - apply value_errors_only_bind, validate_username_value_errors.
  - apply validate_password_value_errors.
  - apply validate_name_value_errors.
  - apply value_errors_only_return.
  - apply value_errors_only_return.
Qed.

(** The username of an accepted record: absent from the body it is
    [None]; present it is a string of 2 to 50 characters that
    [validate_username] lets through. *)
Lemma accepted_username b r :
  UserCreate_validate U P b = Valid r ->
  match get "username" b with
  | None => username r = None
  | Some j =>
      exists u, j = JStr u /\ username r = Some u /\
                (2 <= length u <= 50)%nat /\
                validate_username U u = Return u
  end.
Proof.
  unfold UserCreate_validate. intros H.
  apply ap_valid_inv in H. destruct H as (g6 & x6 & H & _ & ->).
  apply ap_valid_inv in H. destruct H as (g5 & x5 & H & _ & ->).
  apply ap_valid_inv in H. destruct H as (g4 & x4 & H & _ & ->).
  apply ap_valid_inv in H. destruct H as (g3 & x3 & H & _ & ->).
  apply ap_valid_inv in H. destruct H as (g2 & x2 & H & _ & ->).
  apply ap_valid_inv in H. destruct H as (g1 & x1 & H & Hu & ->).
  injection H as <-. simpl. revert Hu. unfold field.
  destruct (get "username" b) as [j|].
  2:{ intros Hu; injection Hu as <-; reflexivity. }
  unfold after, str_schema. destruct j; try discriminate.
  destruct (Nat.ltb_spec (length s) 2); [discriminate|].
  destruct (Nat.ltb_spec 50 (length s)); [discriminate|].
  unfold validate_username.
  destruct (negb (fullmatch username_re s)) eqn:Hm.
  { simpl. discriminate. }
  destruct (str_isdigit U s) eqn:Hd.
  { simpl. discriminate. }
  simpl. intros Hu; injection Hu as <-.
  exists s. rewrite Hm, Hd. repeat split; try reflexivity; lia.
Qed.

End ModelFacts.

(** C8 (the code departs from the claim).  The field has the default
    [None]: a body without username is accepted, and the record carries
    [None] for it. *)
Theorem username_omitted_is_accepted :
  forall U P,
    get "username" [("password", JStr (lit "Abcd123!"))] = None /\
    UserCreate_validate U P [("password", JStr (lit "Abcd123!"))] =
    Valid {| username := None;
             password := lit "Abcd123!";
             name := None;
             age := None;
             email := None;
             role := Some (lit "user") |}.
Proof. intros U P. vm_compute. split; reflexivity. Qed.

(** C10.  [validate_role] is not total on [Optional[str]]: on [None] the
    call of [lower] raises [AttributeError]; a body whose role is an
    explicit null therefore ends the validation with that exception, not
    with a validation error. *)
Theorem validate_role_raises_on_null :
  forall U,
    validate_role U None =
    Raise (PyExc ExcClass.AttributeError
             "'NoneType' object has no attribute 'lower'") /\
    isinstance (PyExc ExcClass.AttributeError
                  "'NoneType' object has no attribute 'lower'")
               ExcClass.ValueError = false /\
    forall P b,
      get "role" b = Some JNull ->
      UserCreate_validate U P b =
      Crashed (PyExc ExcClass.AttributeError
                 "'NoneType' object has no attribute 'lower'").
Proof.
  intros U. split; [reflexivity|]. split; [reflexivity|].
  intros P b. apply role_null_crashes.
Qed.

(* ================================================================== *)
(** * The upstream proxy *)
(* ================================================================== *)

Section ProxyFacts.

Variable send : Request -> result Response.
Variable status_error_message : Response -> string.

(** The wrapper, case by case on what the call did. *)
Lemma handle_postgres_request_cases method url json :
  handle_postgres_request send status_error_message method url json =
  match send {| method := method; url := url; json := json |} with
  | Return r =>
      if is_2xx (status_code r) then Return r
      else Raise (HTTPException (status_code r)
                    (downstream_error (status_error_message r)))
  | Raise e =>
      if isinstance e ExcClass.ConnectError then
        Raise (HTTPException 503 unavailable)
      else if isinstance e ExcClass.HTTPStatusError then
        match e with
        | HTTPStatusError m r =>
            Raise (HTTPException (status_code r) (downstream_error m))
        | _ =>
            Raise (PyExc ExcClass.AttributeError
                     "object has no attribute 'response'")
        end
      else if isinstance e ExcClass.Exception then
        Raise (HTTPException 500 internal_error)
      else Raise e
  end.
Proof.
  unfold handle_postgres_request.
  destruct (send _) as [r|e]; simpl.
  - unfold raise_for_status, is_2xx.
    destruct ((200 <=? status_code r)%Z && (status_code r <=? 299)%Z);
      reflexivity.
  - destruct (isinstance e ExcClass.ConnectError); [reflexivity|].
    destruct (isinstance e ExcClass.HTTPStatusError); [|reflexivity].
    destruct e; reflexivity.
Qed.


(** A route raises again the [HTTPException] of the wrapper. *)
Lemma reply_reraises call s d :
  call = Raise (HTTPException s d) -> reply call = Raise (HTTPException s d).
Proof. intros ->. reflexivity. Qed.

(** An [HTTPException] out of a route is one of the wrapper or the 500
    of the route itself, whose detail is a bare string. *)
Lemma reply_detail call s d :
  reply call = Raise (HTTPException s d) ->
  call = Raise (HTTPException s d) \/ (s = 500%Z /\ exists m, d = DStr m).
Proof.
  unfold reply. destruct call as [r|e]; simpl.
  - unfold json_of. destruct (json_body r); simpl; [discriminate|].
    intros H. injection H as <- <-. right. split; [reflexivity|]. eauto.
  - destruct (isinstance e ExcClass.HTTPException) eqn:Hh.
    { intros H. left. congruence. }
    destruct (isinstance e ExcClass.Exception) eqn:He.
    { intros H. injection H as <- <-. right. split; [reflexivity|]. eauto. }
    intros H. injection H as ->. discriminate.
Qed.

(** Every route is the wrapper on its request, and then [reply]. *)
Lemma serve_request c :
  serve send status_error_message c =
  reply (handle_postgres_request send status_error_message
           (method (request_of c)) (url (request_of c)) (json (request_of c))).
Proof. destruct c; reflexivity. Qed.

Lemma request_eta (q : Request) :
  {| method := method q; url := url q; json := json q |} = q.
Proof. destruct q; reflexivity. Qed.

End ProxyFacts.

(** C2, as stated, fails: a read that times out is raised by the client
    as [ReadTimeout], which is no [ConnectError]; the route answers 500
    with the kind [unexpected_error], not 503 with [connection_error]. *)
Lemma timeout_is_not_connection_error :
  let send := fun _ : Request =>
                @Raise Response (PyExc ExcClass.ReadTimeout "timed out") in
  let text := fun _ : Response => "HTTP error" in
  ExcClass.issubclass ExcClass.ReadTimeout ExcClass.TimeoutException = true /\
  surfaced (get_user send text 1) = Some (500%Z, internal_error) /\
  surfaced (get_user send text 1) <> Some (503%Z, unavailable).
Proof. vm_compute. repeat split; try reflexivity. discriminate. Qed.

(** C2, amended.  A call that times out raises a subclass of
    [TimeoutException]; the wrapper maps it to status 500 with the kind
    [unexpected_error], and so does every route.  The kind
    [connection_error] is surfaced, with status 503, exactly when the
    call raised a [ConnectError] (destination unreachable, connection
    refused): the wrapper and every route map a [ConnectError] to it, and
    an error of that kind out of the wrapper or out of a route has status
    503 and comes from a call that raised a [ConnectError]. *)
Theorem timeout_is_unexpected_error :
  forall send text,
    (forall method url json c m,
       send {| method := method; url := url; json := json |}
       = Raise (PyExc c m) ->
       (ExcClass.issubclass c ExcClass.TimeoutException = true ->
        handle_postgres_request send text method url json
        = Raise (HTTPException 500 internal_error)) /\
       (ExcClass.issubclass c ExcClass.ConnectError = true ->
        handle_postgres_request send text method url json
        = Raise (HTTPException 503 unavailable))) /\
    (forall q c m,
       send (request_of q) = Raise (PyExc c m) ->
       (ExcClass.issubclass c ExcClass.TimeoutException = true ->
        serve send text q = Raise (HTTPException 500 internal_error)) /\
       (ExcClass.issubclass c ExcClass.ConnectError = true ->
        serve send text q = Raise (HTTPException 503 unavailable))) /\
    (forall method url json s m,
       handle_postgres_request send text method url json
       = Raise (HTTPException s (error_detail m "connection_error")) ->
       s = 503%Z /\
       m = "Postgres service unavailable" /\
       exists e,
         send {| method := method; url := url; json := json |} = Raise e /\
         isinstance e ExcClass.ConnectError = true) /\
    (forall q s m,
       serve send text q
       = Raise (HTTPException s (error_detail m "connection_error")) ->
       s = 503%Z /\
       m = "Postgres service unavailable" /\
       exists e,
         send (request_of q) = Raise e /\
         isinstance e ExcClass.ConnectError = true).
Proof.
  intros send text.
  assert (Hw : forall method url json c m,
             send {| method := method; url := url; json := json |}
             = Raise (PyExc c m) ->
             (ExcClass.issubclass c ExcClass.TimeoutException = true ->
              handle_postgres_request send text method url json
              = Raise (HTTPException 500 internal_error)) /\
             (ExcClass.issubclass c ExcClass.ConnectError = true ->
              handle_postgres_request send text method url json
              = Raise (HTTPException 503 unavailable))).
  { intros method url json c m Hsend.
    rewrite handle_postgres_request_cases, Hsend.
    split; intros Hc; destruct c; try discriminate Hc; reflexivity. }
  assert (Hc : forall method url json s m,
             handle_postgres_request send text method url json
             = Raise (HTTPException s (error_detail m "connection_error")) ->
             s = 503%Z /\
             m = "Postgres service unavailable" /\
             exists e,
               send {| method := method; url := url; json := json |}
               = Raise e /\
               isinstance e ExcClass.ConnectError = true).
  { intros method url json s m.
    rewrite handle_postgres_request_cases.
    destruct (send _) as [r|e].
    - destruct (is_2xx (status_code r)); [discriminate|].
      unfold downstream_error, error_detail. intros H. discriminate H.
    - destruct (isinstance e ExcClass.ConnectError) eqn:Hce.
      { unfold unavailable, error_detail. intros H. injection H as <- <-.
        split; [reflexivity|]. split; [reflexivity|].
        exists e. split; [reflexivity | exact Hce]. }
      destruct (isinstance e ExcClass.HTTPStatusError).
      { destruct e; unfold downstream_error, error_detail;
          intros H; discriminate H. }
      destruct (isinstance e ExcClass.Exception) eqn:He.
      { unfold internal_error, error_detail. intros H. discriminate H. }
      intros H. injection H as ->. discriminate He. }
  split; [exact Hw|]. split; [|split; [exact Hc|]].
  - intros q c m Hsend.
    rewrite <- (request_eta (request_of q)) in Hsend.
    split; intros Ht; rewrite serve_request; apply reply_reraises.
    + exact (proj1 (Hw _ _ _ c m Hsend) Ht).
    + exact (proj2 (Hw _ _ _ c m Hsend) Ht).
  - intros q s m H.
    rewrite serve_request in H. apply reply_detail in H.
    destruct H as [H | [_ [m' H]]]; [|discriminate H].
    apply Hc in H. rewrite request_eta in H. exact H.
Qed.

(** C5.  A response whose status is not 2xx is surfaced with that status
    and the kind [http_error], by the wrapper and so by every route; a 404
    of the downstream for [get_user] stays a 404 of kind [http_error]. *)
Theorem non_2xx_is_http_error :
  forall send text,
    (forall method url json r,
       send {| method := method; url := url; json := json |} = Return r ->
       is_2xx (status_code r) = false ->
       handle_postgres_request send text method url json
       = Raise (HTTPException (status_code r) (downstream_error (text r)))) /\
    (forall q r,
       send (request_of q) = Return r ->
       is_2xx (status_code r) = false ->
       serve send text q
       = Raise (HTTPException (status_code r) (downstream_error (text r)))) /\
    (forall user_id r,
       send (request_of (GetUser user_id)) = Return r ->
       status_code r = 404%Z ->
       get_user send text user_id
       = Raise (HTTPException 404 (downstream_error (text r)))).
Proof.
  intros send text.
  assert (Hw : forall method url json r,
             send {| method := method; url := url; json := json |} = Return r ->
             is_2xx (status_code r) = false ->
             handle_postgres_request send text method url json
             = Raise (HTTPException (status_code r)
                        (downstream_error (text r)))).
  { intros method url json r Hsend Hr.
    rewrite handle_postgres_request_cases, Hsend, Hr. reflexivity. }
  assert (Hs : forall q r,
             send (request_of q) = Return r ->
             is_2xx (status_code r) = false ->
             serve send text q
             = Raise (HTTPException (status_code r)
                        (downstream_error (text r)))).
  { intros q r Hsend Hr. rewrite serve_request. apply reply_reraises.
    rewrite <- (request_eta (request_of q)) in Hsend.
    exact (Hw _ _ _ r Hsend Hr). }
  split; [exact Hw|]. split; [exact Hs|].
  intros user_id r Hsend H404.
  rewrite <- H404. apply (Hs (GetUser user_id) r Hsend).
  rewrite H404. reflexivity.
Qed.


(* ================================================================== *)
(** * Further properties of the validators *)
(* ================================================================== *)

(** ** Names *)

Section NameShape.

Variable U : UnicodeData.

Lemma collapse_ws_single_spaced v : single_spaced U (collapse_ws U v) = true.
Proof.
  induction v as [|c t IH]; [reflexivity|].
  destruct t as [|c' t'].
  - simpl. destruct (isspace U c) eqn:Hc; simpl.
    + reflexivity.
    + rewrite Hc. reflexivity.
  - rewrite collapse_ws_cons2.
    destruct (isspace U c) eqn:Hc.
    + destruct (isspace U c') eqn:Hc'; [exact IH|].
      rewrite (collapse_ws_cons_other U c' t' Hc') in IH |- *.
      cbn [single_spaced]. cbn [single_spaced] in IH.
      rewrite isspace_space, Hc'. rewrite Hc' in IH. exact IH.
    + cbn [single_spaced]. rewrite Hc, IH. reflexivity.
Qed.

Lemma collapse_ws_fixed n : single_spaced U n = true -> collapse_ws U n = n.
Proof.
  induction n as [|c t IH]; [reflexivity|].
  cbn [single_spaced]. intros H. apply andb_true_iff in H.
  destruct H as [Hc Ht]. specialize (IH Ht).
  destruct (isspace U c) eqn:Hs.
  - apply andb_true_iff in Hc. destruct Hc as [Hc Hnext].
    apply N.eqb_eq in Hc. subst c.
    destruct t as [|c' t']; [reflexivity|].
    rewrite collapse_ws_cons2, Hs.
    apply negb_true_iff in Hnext. rewrite Hnext, IH. reflexivity.
  - rewrite (collapse_ws_cons_other U c t Hs), IH. reflexivity.
Qed.

Lemma single_spaced_adjacent n :
  single_spaced U n = true ->
  forall l1 a b l2,
    n = (l1 ++ a :: b :: l2)%list ->
    isspace U a = true -> isspace U b = false.
Proof.
  intros Hn l1. revert n Hn.
  induction l1 as [|x l1 IH]; intros n Hn a b l2 -> Ha.
  - cbn [List.app single_spaced] in Hn. rewrite Ha in Hn.
    apply andb_true_iff in Hn. destruct Hn as [Hn _].
    apply andb_true_iff in Hn. destruct Hn as [_ Hn].
    apply negb_true_iff in Hn. exact Hn.
  - cbn [List.app single_spaced] in Hn.
    apply andb_true_iff in Hn. destruct Hn as [_ Hn].
    exact (IH _ Hn a b l2 eq_refl Ha).
Qed.

Lemma single_spaced_space n :
  single_spaced U n = true ->
  forall c, In c n -> isspace U c = true -> c = 32.
Proof.
  induction n as [|x t IH]; intros Hn c Hin Hc; [destruct Hin|].
  cbn [single_spaced] in Hn. apply andb_true_iff in Hn.
  destruct Hn as [Hx Ht].
  destruct Hin as [-> | Hin]; [|exact (IH Ht c Hin Hc)].
  rewrite Hc in Hx. apply andb_true_iff in Hx. destruct Hx as [Hx _].
  apply N.eqb_eq. exact Hx.
Qed.

Lemma rstrip_rec_idempotent v : rstrip_rec U (rstrip_rec U v) = rstrip_rec U v.
Proof.
  induction v as [|c t IH]; [reflexivity|].
  rewrite rstrip_rec_cons.
  destruct (rstrip_rec U t) as [|a r] eqn:E.
  - destruct (isspace U c) eqn:Hc; [reflexivity|].
    simpl. rewrite Hc. reflexivity.
  - rewrite rstrip_rec_cons, IH. reflexivity.
Qed.

Lemma rstrip_rec_last v d :
  rstrip_rec U v <> [] -> isspace U (last (rstrip_rec U v) d) = false.
Proof.
  induction v as [|c t IH]; [intros H; exfalso; apply H; reflexivity|].
  rewrite rstrip_rec_cons.
  destruct (rstrip_rec U t) as [|a r] eqn:E.
  - destruct (isspace U c) eqn:Hc; [intros H; exfalso; apply H; reflexivity|].
    intros _. exact Hc.
  - intros _. change (last (c :: a :: r) d) with (last (a :: r) d).
    apply IH. discriminate.
Qed.

Lemma rstrip_rec_length v : (length (rstrip_rec U v) <= length v)%nat.
Proof.
  induction v as [|c t IH]; [simpl; lia|].
  rewrite rstrip_rec_cons.
  destruct (rstrip_rec U t) as [|a r].
  - destruct (isspace U c); simpl; lia.
  - simpl in IH |- *. lia.
Qed.

Lemma collapse_ws_length v : (length (collapse_ws U v) <= length v)%nat.
Proof.
  induction v as [|c t IH]; [simpl; lia|].
  destruct t as [|c' t'].
  - simpl. destruct (isspace U c); simpl; lia.
  - rewrite collapse_ws_cons2.
    destruct (isspace U c); [destruct (isspace U c')|];
      simpl length in IH |- *; lia.
Qed.

Lemma lstrip_fixed v :
  match v with c :: _ => isspace U c = false | [] => True end ->
  lstrip U v = v.
Proof.
  destruct v as [|c t]; [reflexivity|].
  intros Hc. unfold lstrip. simpl. rewrite Hc. reflexivity.
Qed.

Lemma strip_fixed v :
  match v with c :: _ => isspace U c = false | [] => True end ->
  rstrip_rec U v = v ->
  strip U v = v.
Proof.
  intros Hh Hr. unfold strip.
  rewrite (lstrip_fixed v Hh), rstrip_rstrip_rec. exact Hr.
Qed.

Lemma strip_idempotent v : strip U (strip U v) = strip U v.
Proof.
  apply strip_fixed; [apply strip_head|].
  unfold strip. rewrite rstrip_rstrip_rec. apply rstrip_rec_idempotent.
Qed.

(** A normal form is its own normal form. *)
Lemma normalize_name_idempotent v :
  normalize_name U (normalize_name U v) = normalize_name U v.
Proof.
  rewrite (normalize_name_code U (normalize_name U v)).
  unfold normalize_name at 1. rewrite strip_idempotent.
  fold (normalize_name U v). rewrite normalize_name_code.
  apply collapse_ws_fixed, collapse_ws_single_spaced.
Qed.

Lemma normalize_name_length v :
  (length (normalize_name U v) <= length v)%nat.
Proof.
  unfold normalize_name, strip. rewrite rstrip_rstrip_rec.
  pose proof (rstrip_rec_length (lstrip U (collapse_ws U v))).
  pose proof (drop_while_length (isspace U) (collapse_ws U v)).
  pose proof (collapse_ws_length v).
  unfold lstrip in *. lia.
Qed.

Lemma normalize_name_last v d :
  normalize_name U v <> [] -> isspace U (last (normalize_name U v) d) = false.
Proof.
  unfold normalize_name, strip. rewrite rstrip_rstrip_rec.
  apply rstrip_rec_last.
Qed.

Lemma letters_and_spaces_letter n c :
  letters_and_spaces U n = true -> In c n -> isspace U c = false ->
  isalpha U c = true.
Proof.
  unfold letters_and_spaces. rewrite forallb_forall. intros Hn Hin Hc.
  specialize (Hn c Hin). apply orb_true_iff in Hn.
  destruct Hn as [Hn | Hn]; [exact Hn|].
  apply N.eqb_eq in Hn. subst c. rewrite isspace_space in Hc. discriminate.
Qed.

Lemma validate_name_returns v n :
  validate_name U (Some v) = Return (Some n) ->
  n = normalize_name U v /\ n <> [] /\ letters_and_spaces U n = true.
Proof.
  rewrite validate_name_present.
  destruct (normalize_name U v) as [|c t] eqn:E; cbn [length Nat.eqb negb andb];
    [intros H; discriminate H|].
  destruct (letters_and_spaces U (c :: t)) eqn:Hl; [|intros H; discriminate H].
  intros H. injection H as <-.
  split; [reflexivity|]. split; [discriminate | exact Hl].
Qed.

End NameShape.

(** X1.  Validating an accepted name again returns it unchanged: the
    normal form of a name is a fixed point of [validate_name]. *)
Theorem validate_name_idempotent :
  forall U v n,
    validate_name U (Some v) = Return (Some n) ->
    validate_name U (Some n) = Return (Some n).
Proof.
  intros U v n H.
  destruct (validate_name_returns U v n H) as (Hn & Hne & Hl).
  rewrite validate_name_present.
  assert (Hfix : normalize_name U n = n)
    by (rewrite Hn; apply normalize_name_idempotent).
  rewrite Hfix, Hl.
  destruct n; [congruence | reflexivity].
Qed.

(** X2.  The shape of an accepted name: it is not empty and not longer
    than the raw name, it starts and ends with a letter, it holds only
    letters and spaces, every whitespace character in it is a space, and
    no two whitespace characters are adjacent. *)
Theorem validate_name_shape :
  forall U v n,
    validate_name U (Some v) = Return (Some n) ->
    n <> [] /\
    (length n <= length v)%nat /\
    isalpha U (hd 0 n) = true /\
    isalpha U (last n 0) = true /\
    letters_and_spaces U n = true /\
    (forall c, In c n -> isspace U c = true -> c = 32) /\
    (forall l1 a b l2,
       n = (l1 ++ a :: b :: l2)%list ->
       isspace U a = true -> isspace U b = false).
Proof.
  intros U v n H.
  destruct (validate_name_returns U v n H) as (Hn & Hne & Hl).
  assert (Hs : single_spaced U n = true).
  { rewrite Hn, normalize_name_code. apply collapse_ws_single_spaced. }
  split; [exact Hne|].
  split; [rewrite Hn; apply normalize_name_length|].
  split.
  { pose proof (normalize_name_head U v) as Hh. rewrite <- Hn in Hh.
    destruct n as [|c t]; [congruence|].
    apply (letters_and_spaces_letter U (c :: t) c Hl); [left; reflexivity|].
    exact Hh. }
  split.
  { apply (letters_and_spaces_letter U n _ Hl).
    - destruct (exists_last Hne) as (l' & x & Hx).
      rewrite Hx, last_last. apply in_or_app. right. left. reflexivity.
    - rewrite Hn. apply normalize_name_last. rewrite <- Hn. exact Hne. }
  split; [exact Hl|].
  split; [apply single_spaced_space; exact Hs|].
  apply single_spaced_adjacent. exact Hs.
Qed.

(** ** Roles *)

Lemma pystr_eqb_eq a b : pystr_eqb a b = true <-> a = b.
Proof.
  unfold pystr_eqb. destruct (list_eq_dec N.eq_dec a b); split;
    congruence.
Qed.

Section Roles.

Variable U : UnicodeData.

Lemma validate_role_some v :
  validate_role U (Some v) =
  if pystr_eqb (str_lower U v) (lit "user")
     || pystr_eqb (str_lower U v) (lit "admin")
  then Return (str_lower U v)
  else Raise (ValueError role_message).
Proof.
  unfold validate_role, call_lower, bind, allowed_roles. cbn [existsb].
  rewrite orb_false_r.
  destruct (pystr_eqb (str_lower U v) (lit "user")
            || pystr_eqb (str_lower U v) (lit "admin")); reflexivity.
Qed.

Lemma validate_role_range v r :
  validate_role U v = Return r -> r = lit "user" \/ r = lit "admin".
Proof.
  destruct v as [v|]; [|discriminate].
  rewrite validate_role_some.
  destruct (pystr_eqb (str_lower U v) (lit "user")) eqn:E1.
  { intros H. injection H as <-. left. apply pystr_eqb_eq. exact E1. }
  destruct (pystr_eqb (str_lower U v) (lit "admin")) eqn:E2.
  { intros H. injection H as <-. right. apply pystr_eqb_eq. exact E2. }
  discriminate.
Qed.

Lemma str_lower_ascii v :
  forallb is_ascii v = true -> str_lower U v = map ascii_lower v.
Proof. intros H. unfold str_lower. rewrite H. reflexivity. Qed.

End Roles.

(** X3.  [validate_role] returns nothing but ["user"] or ["admin"], and
    validating its result again returns it unchanged. *)
Theorem validate_role_normal_form :
  forall U v r,
    validate_role U v = Return r ->
    (r = lit "user" \/ r = lit "admin") /\
    validate_role U (Some r) = Return r.
Proof.
  intros U v r H.
  pose proof (validate_role_range U v r H) as Hr.
  split; [exact Hr|].
  destruct Hr as [-> | ->]; reflexivity.
Qed.

(** X4.  On ASCII strings the check of the role ignores the case: the
    verdict is the one of the lower-cased string, so two strings with the
    same lower-casing get the same result; a string whose lower-casing is
    neither ["user"] nor ["admin"] gets the [ValueError] of the role. *)
Theorem validate_role_ignores_case :
  forall U v,
    forallb is_ascii v = true ->
    validate_role U (Some v) = validate_role U (Some (map ascii_lower v)) /\
    (forall w,
       forallb is_ascii w = true ->
       map ascii_lower w = map ascii_lower v ->
       validate_role U (Some w) = validate_role U (Some v)) /\
    (map ascii_lower v <> lit "user" ->
     map ascii_lower v <> lit "admin" ->
     validate_role U (Some v) = Raise (ValueError role_message)).
Proof.
  intros U v Hv.
  assert (Hlow : forall x, forallb is_ascii x = true ->
            validate_role U (Some x) =
            if pystr_eqb (map ascii_lower x) (lit "user")
               || pystr_eqb (map ascii_lower x) (lit "admin")
            then Return (map ascii_lower x)
            else Raise (ValueError role_message)).
  { intros x Hx. rewrite validate_role_some, (str_lower_ascii U x Hx).
    reflexivity. }
  assert (Hascii : forall x, forallb is_ascii x = true ->
            forallb is_ascii (map ascii_lower x) = true).
  { induction x as [|c t IH]; [reflexivity|]. simpl.
    intros H. apply andb_true_iff in H. destruct H as [Hc Ht].
    rewrite (IH Ht), andb_true_r.
    unfold ascii_lower, ascii_isupper, between, is_ascii in *.
    destruct ((65 <=? c) && (c <=? 90)) eqn:E; [|exact Hc].
    apply andb_true_iff in E. destruct E as [_ E].
    apply N.leb_le in E. apply N.ltb_lt. lia. }
  assert (Hidem : forall x, map ascii_lower (map ascii_lower x) = map ascii_lower x).
  { induction x as [|c t IH]; [reflexivity|]. simpl. rewrite IH. f_equal.
    unfold ascii_lower, ascii_isupper, between.
    destruct ((65 <=? c) && (c <=? 90)) eqn:E; [|rewrite E; reflexivity].
    apply andb_true_iff in E. destruct E as [E1 E2].
    apply N.leb_le in E1, E2.
    replace ((65 <=? c + 32) && (c + 32 <=? 90)) with false; [reflexivity|].
    symmetry. apply andb_false_iff. right. apply N.leb_gt. lia. }
  split; [|split].
  - rewrite (Hlow v Hv), (Hlow _ (Hascii v Hv)), Hidem. reflexivity.
  - intros w Hw Heq. rewrite (Hlow v Hv), (Hlow w Hw), Heq. reflexivity.
  - intros H1 H2. rewrite (Hlow v Hv).
    destruct (pystr_eqb (map ascii_lower v) (lit "user")) eqn:E1.
    { apply pystr_eqb_eq in E1. contradiction. }
    destruct (pystr_eqb (map ascii_lower v) (lit "admin")) eqn:E2.
    { apply pystr_eqb_eq in E2. contradiction. }
    reflexivity.
Qed.

(** ** Usernames *)

Lemma username_char_ascii c : username_char c = true -> is_ascii c = true.
Proof.
  unfold username_char, between, is_ascii. intros H.
  apply N.ltb_lt.
  repeat (apply orb_true_iff in H; destruct H as [H | H]);
    try (apply andb_true_iff in H; destruct H as [_ H]; apply N.leb_le in H; lia);
    apply N.eqb_eq in H; lia.
Qed.

Lemma str_isdigit_username U v :
  forallb username_char v = true ->
  str_isdigit U v = negb (is_nil v) && forallb ascii_isdigit v.
Proof.
  intros Hv. unfold str_isdigit.
  replace (negb (Nat.eqb (length v) 0)) with (negb (is_nil v))
    by (destruct v; reflexivity).
  f_equal. induction v as [|c t IH]; [reflexivity|].
  simpl in Hv |- *. apply andb_true_iff in Hv. destruct Hv as [Hc Ht].
  rewrite (IH Ht). unfold isdigit. rewrite (username_char_ascii c Hc).
  reflexivity.
Qed.

(** X5.  What [validate_username] accepts, and that it returns it
    unchanged: a string that is not empty, made of ASCII letters, digits,
    dots and underscores, not all digits, and not of the form of some dots
    followed by some underscores nor of some underscores followed by some
    dots. *)
Theorem validate_username_accepts_exactly :
  forall U v r,
    validate_username U v = Return r <->
    r = v /\
    v <> [] /\
    forallb username_char v = true /\
    forallb ascii_isdigit v = false /\
    ~ (exists m n,
         v = (repeat 46 (S m) ++ repeat 95 (S n))%list \/
         v = (repeat 95 (S m) ++ repeat 46 (S n))%list).
Proof.
  intros U v r.
  assert (Hret : validate_username U v = Return r -> r = v).
  { unfold validate_username.
    destruct (negb (fullmatch username_re v)); [discriminate|].
    destruct (str_isdigit U v); [discriminate|].
    intros H. injection H as <-. reflexivity. }
  split.
  - intros H. pose proof (Hret H) as ->. split; [reflexivity|].
    apply validate_username_accepts in H.
    destruct H as (Hne & Hc & Hd & He).
    split; [exact Hne|]. split; [exact Hc|].
    split.
    + rewrite (str_isdigit_username U v Hc) in Hd.
      destruct v; [congruence | exact Hd].
    + intros Hshape. apply (excluded_fillers_shape v Hc) in Hshape.
      congruence.
  - intros (-> & Hne & Hc & Hd & Hshape).
    apply validate_username_accepts.
    split; [exact Hne|]. split; [exact Hc|].
    split.
    + rewrite (str_isdigit_username U v Hc), Hd. apply andb_false_r.
    + destruct (excluded_fillers v) eqn:E; [|reflexivity].
      exfalso. apply Hshape. apply (excluded_fillers_shape v Hc). exact E.
Qed.

(** X6.  The verdict on a username does not depend on the Unicode tables:
    a string that is empty, holds a character outside the class or is one
    of the excluded runs gets the error of the pattern; otherwise a string
    of ASCII digits gets the error of the digits; any other string is
    returned. *)
Theorem validate_username_verdict :
  forall U v, validate_username U v = username_verdict v.
Proof.
  intros U v. unfold validate_username, username_verdict.
  rewrite fullmatch_username_re.
  destruct v as [|c t]; [reflexivity|].
  cbn [is_nil negb orb]. rewrite andb_true_l.
  destruct (forallb username_char (c :: t)) eqn:Hc.
  - rewrite (str_isdigit_username U (c :: t) Hc). cbn [is_nil negb andb orb].
    rewrite andb_true_r.
    destruct (excluded_fillers (c :: t)); reflexivity.
  - rewrite andb_false_r. reflexivity.
Qed.

(** ** Passwords *)

(** X7.  What [validate_password] accepts, and that it returns it
    unchanged: at least 8 characters, with a digit, an uppercase letter, a
    lowercase letter and one of the twenty characters
    [@_!#$%^&*()<>?/|}{~:] among them. *)
Theorem validate_password_accepts_exactly :
  forall U v r,
    validate_password U v = Return r <->
    r = v /\
    (8 <= length v)%nat /\
    (exists c, In c v /\ isdigit U c = true) /\
    (exists c, In c v /\ isupper U c = true) /\
    (exists c, In c v /\ islower U c = true) /\
    (exists c, In c v /\ In c special_set).
Proof.
  intros U v r.
  assert (Hspecial : forall c, is_special c = true <-> In c special_set).
  { intros c. unfold is_special. rewrite existsb_exists. split.
    - intros (x & Hx & E). apply N.eqb_eq in E. subst x. exact Hx.
    - intros H. exists c. split; [exact H | apply N.eqb_refl]. }
  assert (Hrules : (forall rule, satisfies U rule v = true) <->
            (8 <= length v)%nat /\
            (exists c, In c v /\ isdigit U c = true) /\
            (exists c, In c v /\ isupper U c = true) /\
            (exists c, In c v /\ islower U c = true) /\
            (exists c, In c v /\ In c special_set)).
  { split.
    - intros H.
      pose proof (H LengthRule) as H0. pose proof (H DigitRule) as H1.
      pose proof (H UppercaseRule) as H2. pose proof (H LowercaseRule) as H3.
      pose proof (H SpecialRule) as H4. cbn [satisfies] in H0, H1, H2, H3, H4.
      apply Nat.leb_le in H0.
      apply existsb_exists in H1, H2, H3, H4.
      repeat split; try assumption.
      destruct H4 as (c & Hin & Hc). exists c. split; [exact Hin|].
      apply Hspecial. exact Hc.
    - intros (H0 & H1 & H2 & H3 & H4) rule.
      destruct rule; cbn [satisfies].
      + apply Nat.leb_le. exact H0.
      + apply existsb_exists. exact H1.
      + apply existsb_exists. exact H2.
      + apply existsb_exists. exact H3.
      + apply existsb_exists. destruct H4 as (c & Hin & Hc).
        exists c. split; [exact Hin | apply Hspecial; exact Hc]. }
  split.
  - intros H.
    destruct (validate_password_outcome U v) as [Hv | (rule & _ & Hv)];
      rewrite Hv in H; [|discriminate].
    injection H as <-. split; [reflexivity|].
    apply Hrules. apply validate_password_accepts. exact Hv.
  - intros (-> & H). apply validate_password_accepts. apply Hrules. exact H.
Qed.

(* ================================================================== *)
(** * Further properties of the model *)
(* ================================================================== *)

Lemma ap_no_crash_inv {A B} (f : validation (A -> B)) (x : validation A) :
  no_crash (f <*> x) -> no_crash f /\ no_crash x.
Proof. destruct f, x; simpl; tauto. Qed.

Lemma lines_ap {A B} (f : validation (A -> B)) (x : validation A) :
  no_crash (f <*> x) -> lines (f <*> x) = (lines f ++ lines x)%list.
Proof.
  destruct f, x; simpl; try tauto; intros _; try reflexivity.
  symmetry. apply app_nil_r.
Qed.

Lemma no_crash_neq {A} (x : validation A) e : no_crash x -> x <> Crashed e.
Proof. destruct x; simpl; [discriminate | discriminate | tauto]. Qed.

Section FieldFacts.

Variable U : UnicodeData.
Variable P : Pydantic.

Lemma UserCreate_validate_fields b :
  UserCreate_validate U P b =
  Valid Build_UserCreate
  <*> username_field U b <*> password_field U b <*> name_field U b
  <*> age_field P b <*> email_field P b <*> role_field U b.
Proof. reflexivity. Qed.

Lemma username_field_no_crash b : no_crash (username_field U b).
Proof.
  apply field_no_crash. intros j. apply after_no_crash.
  apply value_errors_only_bind, validate_username_value_errors.
Qed.

Lemma password_field_no_crash b : no_crash (password_field U b).
Proof.
  apply field_no_crash. intros j. apply after_no_crash.
  apply validate_password_value_errors.
Qed.

Lemma name_field_no_crash b : no_crash (name_field U b).
Proof.
  apply field_no_crash. intros j. apply after_no_crash.
  apply validate_name_value_errors.
Qed.

Lemma age_field_no_crash b : no_crash (age_field P b).
Proof.
  apply field_no_crash. intros j. apply after_no_crash.
  apply value_errors_only_return.
Qed.

Lemma email_field_no_crash b : no_crash (email_field P b).
Proof.
  apply field_no_crash. intros j. apply after_no_crash.
  apply value_errors_only_return.
Qed.

(** The role is the one field whose validation can raise. *)
Lemma role_field_no_crash b :
  get "role" b <> Some JNull -> no_crash (role_field U b).
Proof.
  intros Hrole. unfold role_field, field.
  destruct (get "role" b) as [j|]; [|exact I].
  unfold after, nullable, str_schema.
  destruct j; try exact I; [congruence|].
  cbn [bind]. rewrite validate_role_some.
  destruct (_ || _); exact I.
Qed.

Lemma UserCreate_validate_no_crash b :
  get "role" b <> Some JNull -> no_crash (UserCreate_validate U P b).
Proof.
  intros Hrole. rewrite UserCreate_validate_fields.
  repeat apply ap_no_crash; try exact I.
  - apply username_field_no_crash.
  - apply password_field_no_crash.
  - apply name_field_no_crash.
  - apply age_field_no_crash.
  - apply email_field_no_crash.
  - apply role_field_no_crash. exact Hrole.
Qed.

(** The record of an accepted body, field by field. *)
Lemma UserCreate_validate_valid b r :
  UserCreate_validate U P b = Valid r ->
  username_field U b = Valid (username r) /\
  password_field U b = Valid (password r) /\
  name_field U b = Valid (name r) /\
  age_field P b = Valid (age r) /\
  email_field P b = Valid (email r) /\
  role_field U b = Valid (role r).
Proof.
  rewrite UserCreate_validate_fields. intros H.
  apply ap_valid_inv in H. destruct H as (g6 & x6 & H & H6 & ->).
  apply ap_valid_inv in H. destruct H as (g5 & x5 & H & H5 & ->).
  apply ap_valid_inv in H. destruct H as (g4 & x4 & H & H4 & ->).
  apply ap_valid_inv in H. destruct H as (g3 & x3 & H & H3 & ->).
  apply ap_valid_inv in H. destruct H as (g2 & x2 & H & H2 & ->).
  apply ap_valid_inv in H. destruct H as (g1 & x1 & H & H1 & ->).
  injection H as <-. simpl. repeat split; assumption.
Qed.

Lemma password_field_valid b p :
  password_field U b = Valid p ->
  get "password" b = Some (JStr p) /\ validate_password U p = Return p.
Proof.
  unfold password_field, field.
  destruct (get "password" b) as [j|]; [|discriminate].
  unfold after, str_schema. destruct j; try discriminate.
  destruct (validate_password_outcome U s) as [Hv | (rule & _ & Hv)];
    rewrite Hv; [|discriminate].
  intros H. injection H as <-. split; [reflexivity | exact Hv].
Qed.

Lemma role_field_valid b ro :
  role_field U b = Valid ro ->
  (get "role" b = None /\ ro = Some (lit "user")) \/
  (exists v r, get "role" b = Some (JStr v) /\
               validate_role U (Some v) = Return r /\ ro = Some r).
Proof.
  unfold role_field, field.
  destruct (get "role" b) as [j|].
  2:{ intros H. injection H as <-. left. split; reflexivity. }
  unfold after, nullable, str_schema. destruct j; try discriminate.
  cbn [bind].
  destruct (validate_role U (Some s)) as [r|e] eqn:Hr.
  - intros H. injection H as <-. right. exists s, r. repeat split. exact Hr.
  - cbn [bind]. destruct (_ || _); discriminate.
Qed.

Lemma int_schema_bounds ge le j z :
  int_schema P ge le j = inr z -> (ge <= z <= le)%Z.
Proof.
  unfold int_schema. destruct (int_parser P j) as [x|]; [|discriminate].
  destruct (Z.ltb_spec x ge) as [Hlo|Hlo]; [discriminate|].
  destruct (Z.ltb_spec le x) as [Hhi|Hhi]; [discriminate|].
  intros Heq. injection Heq as <-. lia.
Qed.

Lemma age_field_valid b a :
  age_field P b = Valid a ->
  a = None \/ exists z, a = Some z /\ (0 <= z <= 150)%Z.
Proof.
  unfold age_field, field.
  destruct (get "age" b) as [j|].
  2:{ intros H. injection H as <-. left. reflexivity. }
  unfold after, nullable.
  destruct j;
    try (intros H; injection H as <-; left; reflexivity);
    (destruct (int_schema P 0 150 _) as [err|x] eqn:E; [discriminate|];
     intros H; injection H as <-; right; exists x;
     split; [reflexivity | exact (int_schema_bounds _ _ _ _ E)]).
Qed.

Lemma name_field_valid b n :
  name_field U b = Valid n ->
  n = None \/
  exists v n', get "name" b = Some (JStr v) /\ (2 <= length v <= 50)%nat /\
               validate_name U (Some v) = Return (Some n') /\ n = Some n'.
Proof.
  unfold name_field, field.
  destruct (get "name" b) as [j|].
  2:{ intros H. injection H as <-. left. reflexivity. }
  unfold after, nullable, str_schema.
  destruct j; try discriminate.
  { simpl. intros H. injection H as <-. left. reflexivity. }
  destruct (Nat.ltb_spec (length s) 2) as [Hlo|Hlo]; [discriminate|].
  destruct (Nat.ltb_spec 50 (length s)) as [Hhi|Hhi]; [discriminate|].
  destruct (validate_name U (Some s)) as [[n'|]|e] eqn:Hv.
  - intros H. injection H as <-. right. exists s, n'.
    repeat split; try reflexivity; try exact Hv; lia.
  - rewrite validate_name_present in Hv.
    destruct (_ && _); discriminate.
  - pose proof (validate_name_value_errors U (Some s)) as He.
    rewrite Hv in He. rewrite He. discriminate.
Qed.

End FieldFacts.

(** X8.  Building the model raises an exception that is no validation
    error exactly when the body gives an explicit null for the role; for
    every other body the outcome is a record or a list of error lines. *)
Theorem UserCreate_crashes_only_on_null_role :
  forall U P b,
    (exists e, UserCreate_validate U P b = Crashed e) <->
    get "role" b = Some JNull.
Proof.
  intros U P b. split.
  - intros [e He].
    destruct (get "role" b) as [j|] eqn:Hrole.
    + destruct j; try reflexivity;
        exfalso;
        apply (no_crash_neq (UserCreate_validate U P b) e);
        try exact He;
        apply UserCreate_validate_no_crash; rewrite Hrole; discriminate.
    + exfalso. apply (no_crash_neq (UserCreate_validate U P b) e); [|exact He].
      apply UserCreate_validate_no_crash. rewrite Hrole. discriminate.
  - intros Hrole. eexists. apply role_null_crashes. exact Hrole.
Qed.

(** X9.  What an accepted record holds: a password that satisfies the
    five rules; a role that is ["user"] or ["admin"], never [None]; an
    age, when there is one, between 0 and 150; a name, when there is one,
    that is not empty, at most 50 characters long and made of letters and
    spaces. *)
Theorem accepted_record_invariants :
  forall U P b r,
    UserCreate_validate U P b = Valid r ->
    (forall rule, satisfies U rule (password r) = true) /\
    (role r = Some (lit "user") \/ role r = Some (lit "admin")) /\
    (forall z, age r = Some z -> (0 <= z <= 150)%Z) /\
    (forall n, name r = Some n ->
       n <> [] /\ (length n <= 50)%nat /\ letters_and_spaces U n = true).
Proof.
  intros U P b r H.
  destruct (UserCreate_validate_valid U P b r H)
    as (_ & Hp & Hn & Ha & _ & Hr).
  split.
  { apply validate_password_accepts.
    apply (password_field_valid U b (password r) Hp). }
  split.
  { destruct (role_field_valid U b (role r) Hr)
      as [[_ ->] | (v & x & _ & Hv & ->)]; [left; reflexivity|].
    destruct (validate_role_range U (Some v) x Hv) as [-> | ->];
      [left | right]; reflexivity. }
  split.
  { intros z Hz.
    destruct (age_field_valid P b (age r) Ha) as [H0 | (z' & H0 & Hb)];
      rewrite H0 in Hz; [discriminate|].
    injection Hz as <-. exact Hb. }
  intros n Hname.
  destruct (name_field_valid U b (name r) Hn)
    as [H0 | (v & n' & _ & Hlen & Hv & H0)];
    rewrite H0 in Hname; [discriminate|].
  injection Hname as <-.
  destruct (validate_name_returns U v n' Hv) as (Heq & Hne & Hl).
  split; [exact Hne|]. split; [|exact Hl].
  pose proof (normalize_name_length U v) as Hle. rewrite <- Heq in Hle. lia.
Qed.

(** X10.  The password is required: a body without it is never accepted,
    and unless the role is an explicit null the error lines hold the line
    of the missing password. *)
Theorem password_is_required :
  forall U P b,
    get "password" b = None ->
    (forall r, UserCreate_validate U P b <> Valid r) /\
    (get "role" b <> Some JNull ->
     exists errs,
       UserCreate_validate U P b = Invalid errs /\
       In ("password", Missing) errs).
Proof.
  intros U P b Hpw.
  assert (Hfield : password_field U b = Invalid [("password", Missing)]).
  { unfold password_field, field. rewrite Hpw. reflexivity. }
  split.
  - intros r H.
    destruct (UserCreate_validate_valid U P b r H) as (_ & Hp & _).
    rewrite Hfield in Hp. discriminate.
  - intros Hrole.
    pose proof (UserCreate_validate_no_crash U P b Hrole) as Hnc.
    assert (Hl : In ("password", Missing) (lines (UserCreate_validate U P b))).
    { rewrite UserCreate_validate_fields in Hnc |- *.
      pose proof Hnc as H6. apply ap_no_crash_inv in H6. destruct H6 as [H5 _].
      pose proof H5 as H5'. apply ap_no_crash_inv in H5'. destruct H5' as [H4 _].
      pose proof H4 as H4'. apply ap_no_crash_inv in H4'. destruct H4' as [H3 _].
      pose proof H3 as H3'. apply ap_no_crash_inv in H3'. destruct H3' as [H2 _].
      rewrite (lines_ap _ _ Hnc), (lines_ap _ _ H5), (lines_ap _ _ H4),
        (lines_ap _ _ H3), (lines_ap _ _ H2), Hfield.
      do 4 (apply in_or_app; left).
      apply in_or_app. right. left. reflexivity. }
    destruct (UserCreate_validate U P b) as [r|errs|e];
      [destruct Hl | | destruct Hnc].
    exists errs. split; [reflexivity | exact Hl].
Qed.

(** X11.  A rejected body reports every failing field, not only the
    first: its error lines are the lines of the six fields, in the order
    of their declaration, and each field gives at most one line. *)
Theorem errors_are_collected :
  forall U P b errs,
    UserCreate_validate U P b = Invalid errs ->
    errs = (lines (username_field U b) ++ lines (password_field U b)
            ++ lines (name_field U b) ++ lines (age_field P b)
            ++ lines (email_field P b) ++ lines (role_field U b))%list /\
    errs <> [] /\
    (length (lines (username_field U b)) <= 1)%nat /\
    (length (lines (password_field U b)) <= 1)%nat /\
    (length (lines (name_field U b)) <= 1)%nat /\
    (length (lines (age_field P b)) <= 1)%nat /\
    (length (lines (email_field P b)) <= 1)%nat /\
    (length (lines (role_field U b)) <= 1)%nat.
Proof.
  intros U P b errs H.
  assert (Hone : forall A B name (d : option B)
                        (p : Json -> field_error + A) (val : A -> result B),
            (length (lines (field name d (fun j => after name (p j) val) b))
             <= 1)%nat).
  { intros A B name d p val. unfold field.
    destruct (get name b) as [j|]; [|destruct d; simpl; lia].
    unfold after. destruct (p j) as [err|a]; [simpl; lia|].
    destruct (val a); [simpl; lia|].
    destruct (_ || _); simpl; lia. }
  assert (Hnc : no_crash (UserCreate_validate U P b)) by (rewrite H; exact I).
  assert (Hl : lines (UserCreate_validate U P b) = errs) by (rewrite H; reflexivity).
  rewrite UserCreate_validate_fields in Hnc, Hl.
  pose proof Hnc as H6. apply ap_no_crash_inv in H6. destruct H6 as [H5 _].
  pose proof H5 as H5'. apply ap_no_crash_inv in H5'. destruct H5' as [H4 _].
  pose proof H4 as H4'. apply ap_no_crash_inv in H4'. destruct H4' as [H3 _].
  pose proof H3 as H3'. apply ap_no_crash_inv in H3'. destruct H3' as [H2 _].
  pose proof H2 as H2'. apply ap_no_crash_inv in H2'. destruct H2' as [H1 _].
  rewrite (lines_ap _ _ Hnc), (lines_ap _ _ H5), (lines_ap _ _ H4),
    (lines_ap _ _ H3), (lines_ap _ _ H2), (lines_ap _ _ H1) in Hl.
  cbn [lines List.app] in Hl. rewrite <- !app_assoc in Hl.
  split; [symmetry; exact Hl|].
  split.
  { intros ->.
    apply app_eq_nil in Hl. destruct Hl as [L1 Hl].
    apply app_eq_nil in Hl. destruct Hl as [L2 Hl].
    apply app_eq_nil in Hl. destruct Hl as [L3 Hl].
    apply app_eq_nil in Hl. destruct Hl as [L4 Hl].
    apply app_eq_nil in Hl. destruct Hl as [L5 L6].
    assert (Hfield : forall A B name (d : option B)
                          (p : Json -> field_error + A) (val : A -> result B),
              lines (field name d (fun j => after name (p j) val) b) = [] ->
              forall e, field name d (fun j => after name (p j) val) b
                        <> Invalid e).
    { intros A B name d p val. unfold field.
      destruct (get name b) as [j|]; [|destruct d; simpl; congruence].
      unfold after. destruct (p j) as [err|a]; [simpl; discriminate|].
      destruct (val a); [simpl; congruence|].
      destruct (_ || _); simpl; [discriminate | congruence]. }
    rewrite UserCreate_validate_fields in H.
    assert (N1 : forall e, username_field U b <> Invalid e)
      by exact (Hfield _ _ _ _ _ _ L1).
    assert (N2 : forall e, password_field U b <> Invalid e)
      by exact (Hfield _ _ _ _ _ _ L2).
    assert (N3 : forall e, name_field U b <> Invalid e)
      by exact (Hfield _ _ _ _ _ _ L3).
    assert (N4 : forall e, age_field P b <> Invalid e)
      by exact (Hfield _ _ _ _ _ _ L4).
    assert (N5 : forall e, email_field P b <> Invalid e)
      by exact (Hfield _ _ _ _ _ _ L5).
    assert (N6 : forall e, role_field U b <> Invalid e)
      by exact (Hfield _ _ _ _ _ _ L6).
    clear Hone Hnc H5 H4 H3 H2 H1 L1 L2 L3 L4 L5 L6 Hfield.
    destruct (username_field U b) as [?|e1|?];
      [|exfalso; exact (N1 e1 eq_refl)|discriminate H].
    destruct (password_field U b) as [?|e2|?];
      [|exfalso; exact (N2 e2 eq_refl)|discriminate H].
    destruct (name_field U b) as [?|e3|?];
      [|exfalso; exact (N3 e3 eq_refl)|discriminate H].
    destruct (age_field P b) as [?|e4|?];
      [|exfalso; exact (N4 e4 eq_refl)|discriminate H].
    destruct (email_field P b) as [?|e5|?];
      [|exfalso; exact (N5 e5 eq_refl)|discriminate H].
    destruct (role_field U b) as [?|e6|?];
      [|exfalso; exact (N6 e6 eq_refl)|discriminate H].
    discriminate H. }
  repeat split; apply Hone.
Qed.

Section RecordFacts.

Variable U : UnicodeData.
Variable P : Pydantic.

Lemma username_field_valid b u :
  username_field U b = Valid u ->
  u = match get "username" b with
      | Some (JStr s) => Some s
      | _ => None
      end /\
  forall s, u = Some s -> (2 <= length s <= 50)%nat.
Proof.
  unfold username_field, field.
  destruct (get "username" b) as [j|].
  2:{ intros H. injection H as <-. split; [reflexivity | discriminate]. }
  unfold after, str_schema. destruct j; try discriminate.
  destruct (Nat.ltb_spec (length s) 2) as [Hlo|Hlo]; [discriminate|].
  destruct (Nat.ltb_spec 50 (length s)) as [Hhi|Hhi]; [discriminate|].
  unfold validate_username.
  destruct (negb (fullmatch username_re s)); [discriminate|].
  destruct (str_isdigit U s); [discriminate|].
  cbn [bind]. intros H. injection H as <-.
  split; [reflexivity|]. intros s' Hs. injection Hs as <-. lia.
Qed.


End RecordFacts.

(** X17.  How an accepted record follows from its body: the username and
    the password are the strings of the body, unchanged, the username
    being [None] when the body has none and 2 to 50 characters long
    otherwise; the name is the normal form of the given name, or [None]
    when it is absent or null; the role is the given role in lower case,
    or ["user"] when the body has none. *)
Theorem accepted_record_fields :
  forall U P b r,
    UserCreate_validate U P b = Valid r ->
    username r = match get "username" b with
                 | Some (JStr s) => Some s
                 | _ => None
                 end /\
    (forall s, username r = Some s -> (2 <= length s <= 50)%nat) /\
    get "password" b = Some (JStr (password r)) /\
    name r = match get "name" b with
             | Some (JStr v) => Some (normalize_name U v)
             | _ => None
             end /\
    role r = match get "role" b with
             | Some (JStr v) => Some (str_lower U v)
             | _ => Some (lit "user")
             end.
Proof.
  intros U P b r H.
  destruct (UserCreate_validate_valid U P b r H)
    as (Hu & Hp & Hn & _ & _ & Hr).
  destruct (username_field_valid U b (username r) Hu) as [Hu1 Hu2].
  split; [exact Hu1|]. split; [exact Hu2|].
  split; [apply (password_field_valid U b (password r) Hp)|].
  split.
  - destruct (name_field_valid U b (name r) Hn)
      as [H0 | (v & n' & Hget & _ & Hv & H0)].
    + rewrite H0. revert Hn. unfold name_field, field.
      destruct (get "name" b) as [j|]; [|reflexivity].
      destruct j; try reflexivity.
      unfold after, nullable, str_schema.
      destruct (Nat.ltb_spec (length s) 2) as [Hlo|Hlo]; [discriminate|].
      destruct (Nat.ltb_spec 50 (length s)) as [Hhi|Hhi]; [discriminate|].
      rewrite H0, validate_name_present.
      destruct (_ && _); discriminate.
    + rewrite H0, Hget.
      destruct (validate_name_returns U v n' Hv) as (-> & _). reflexivity.
  - destruct (role_field_valid U b (role r) Hr)
      as [[Hget ->] | (v & x & Hget & Hv & ->)]; rewrite Hget; [reflexivity|].
    rewrite validate_role_some in Hv.
    destruct (_ || _); [|discriminate]. injection Hv as <-. reflexivity.
Qed.


(* ================================================================== *)
(** * Further properties of the proxy *)
(* ================================================================== *)

Section RouteFacts.

Variable send : Request -> result Response.
Variable text : Response -> string.

(** A route, case by case on what its one call did. *)
Lemma serve_cases q :
  serve send text q =
  match send (request_of q) with
  | Return r =>
      if is_2xx (status_code r) then
        match json_body r with
        | inl j => Return {| content := j; response_status := status_code r |}
        | inr m => Raise (HTTPException 500 (DStr m))
        end
      else Raise (HTTPException (status_code r) (downstream_error (text r)))
  | Raise e =>
      if isinstance e ExcClass.ConnectError then
        Raise (HTTPException 503 unavailable)
      else if isinstance e ExcClass.HTTPStatusError then
        match e with
        | HTTPStatusError m r =>
            Raise (HTTPException (status_code r) (downstream_error m))
        | _ =>
            Raise (HTTPException 500
                     (DStr "object has no attribute 'response'"))
        end
      else if isinstance e ExcClass.Exception then
        Raise (HTTPException 500 internal_error)
      else Raise e
  end.
Proof.
  rewrite serve_request, handle_postgres_request_cases, request_eta.
  destruct (send (request_of q)) as [r|e].
  - destruct (is_2xx (status_code r)); [|reflexivity].
    unfold reply, json_of. cbn [bind].
    destruct (json_body r); reflexivity.
  - destruct (isinstance e ExcClass.ConnectError) eqn:Hc; [reflexivity|].
    destruct (isinstance e ExcClass.HTTPStatusError) eqn:Hs.
    { destruct e; reflexivity. }
    destruct (isinstance e ExcClass.Exception) eqn:He; [reflexivity|].
    unfold reply. cbn [bind dispatch]. rewrite He.
    replace (isinstance e ExcClass.HTTPException) with false; [reflexivity|].
    destruct e as [c m| |]; try discriminate He.
    destruct c; try discriminate He; reflexivity.
Qed.

End RouteFacts.

(** X12.  When a route answers with success, the downstream answered its
    request with a 2xx status and a body that decodes, and the answer
    carries that body and that status unchanged: no failure of the
    downstream is turned into a success. *)
Theorem route_success :
  forall send text q resp,
    serve send text q = Return resp ->
    exists r j,
      send (request_of q) = Return r /\
      is_2xx (status_code r) = true /\
      json_body r = inl j /\
      resp = {| content := j; response_status := status_code r |}.
Proof.
  intros send text q resp. rewrite serve_cases.
  destruct (send (request_of q)) as [r|e].
  - destruct (is_2xx (status_code r)) eqn:H2; [|discriminate].
    destruct (json_body r) as [j|m] eqn:Hj; [|discriminate].
    intros H. injection H as <-. exists r, j. repeat split; assumption.
  - destruct (isinstance e ExcClass.ConnectError); [discriminate|].
    destruct (isinstance e ExcClass.HTTPStatusError).
    { destruct e; discriminate. }
    destruct (isinstance e ExcClass.Exception); discriminate.
Qed.

(** X13.  When the downstream answers 2xx with a body that does not
    decode, every route raises a 500 whose detail is the bare text of the
    decoding error. *)
Theorem undecodable_body_is_500 :
  forall send text q r m,
    send (request_of q) = Return r ->
    is_2xx (status_code r) = true ->
    json_body r = inr m ->
    serve send text q = Raise (HTTPException 500 (DStr m)).
Proof.
  intros send text q r m Hsend H2 Hj.
  rewrite serve_cases, Hsend, H2, Hj. reflexivity.
Qed.

(** X14.  An exception of the call that is no [Exception], such as a
    cancellation or a keyboard interrupt, is caught neither by the wrapper
    nor by the route: it leaves the route as it is. *)
Theorem base_exceptions_pass_through :
  forall send text q e,
    send (request_of q) = Raise e ->
    isinstance e ExcClass.Exception = false ->
    serve send text q = Raise e.
Proof.
  intros send text q e Hsend He.
  rewrite serve_cases, Hsend.
  replace (isinstance e ExcClass.ConnectError) with false.
  2:{ symmetry. destruct (isinstance e ExcClass.ConnectError) eqn:E;
        [|reflexivity].
      destruct e as [k m| |]; try discriminate He.
      destruct k; try discriminate He; discriminate E. }
  replace (isinstance e ExcClass.HTTPStatusError) with false.
  2:{ symmetry. destruct (isinstance e ExcClass.HTTPStatusError) eqn:E;
        [|reflexivity].
      destruct e as [k m| |]; try discriminate He.
      destruct k; try discriminate He; discriminate E. }
  rewrite He. reflexivity.
Qed.

(** X15.  A failure of the transport never shows its own message: for an
    exception of a class below [Exception] other than [HTTPStatusError],
    every route raises one of two fixed errors, 503 with the detail of the
    unavailable service when the class is a [ConnectError], 500 with the
    detail of the internal error otherwise. *)
Theorem transport_failures_are_opaque :
  forall send text q c m,
    send (request_of q) = Raise (PyExc c m) ->
    ExcClass.issubclass c ExcClass.Exception = true ->
    c <> ExcClass.HTTPStatusError ->
    serve send text q =
    if ExcClass.issubclass c ExcClass.ConnectError
    then Raise (HTTPException 503 unavailable)
    else Raise (HTTPException 500 internal_error).
Proof.
  intros send text q c m Hsend Hc Hns.
  rewrite serve_cases, Hsend. unfold isinstance. cbn [class_of].
  destruct (ExcClass.issubclass c ExcClass.ConnectError); [reflexivity|].
  rewrite Hc.
  destruct c; try discriminate Hc; try reflexivity. congruence.
Qed.

Lemma Z_of_string_of_Z z : Z_of_string (string_of_Z z) = Some z.
Proof.
  unfold Z_of_string, string_of_Z.
  rewrite NilZero.isi.
  - simpl. rewrite DecimalZ.of_to. reflexivity.
  - destruct z; simpl; try discriminate.
    intros H. injection H as H. exact (DecimalPos.Unsigned.to_uint_nonnil _ H).
  - destruct z; simpl; try discriminate.
    intros H. injection H as H. exact (DecimalPos.Unsigned.to_uint_nonnil _ H).
Qed.

(** X16.  The id of a user is written into the path in decimal and can be
    read back from it; two different calls of the routes never make the
    same request to the downstream. *)
Theorem requests_are_distinct :
  (forall z, Z_of_string (string_of_Z z) = Some z) /\
  (forall q1 q2, request_of q1 = request_of q2 -> q1 = q2).
Proof.
  split; [exact Z_of_string_of_Z|].
  assert (Hinj : forall a b, string_of_Z a = string_of_Z b -> a = b).
  { intros a b H.
    pose proof (Z_of_string_of_Z a) as Ha. rewrite H, Z_of_string_of_Z in Ha.
    congruence. }
  intros q1 q2 H.
  destruct q1, q2; simpl in H; try discriminate H;
    try reflexivity; injection H as H; f_equal;
    first [ exact H | apply Hinj; exact H ].
Qed.

(** X19.  The status of an error that a route surfaces is 503, 500 or
    the status of a response of the downstream, returned by the call or
    carried by its [HTTPStatusError]. *)
Theorem surfaced_status :
  forall send text q s d,
    serve send text q = Raise (HTTPException s d) ->
    s = 503%Z \/ s = 500%Z \/
    exists r,
      s = status_code r /\
      (send (request_of q) = Return r \/
       exists m, send (request_of q) = Raise (HTTPStatusError m r)).
Proof.
  intros send text q s d. rewrite serve_cases.
  destruct (send (request_of q)) as [r|e] eqn:Hsend.
  - destruct (is_2xx (status_code r)).
    + destruct (json_body r); [discriminate|].
      intros H. injection H as <- _. right. left. reflexivity.
    + intros H. injection H as <- _. right. right. exists r.
      split; [reflexivity | left; reflexivity].
  - destruct (isinstance e ExcClass.ConnectError).
    { intros H. injection H as <- _. left. reflexivity. }
    destruct (isinstance e ExcClass.HTTPStatusError) eqn:Hs.
    { destruct e as [c m|m r|s' d'].
      - intros H. injection H as <- _. right. left. reflexivity.
      - intros H. injection H as <- _. right. right. exists r.
        split; [reflexivity | right; exists m; reflexivity].
      - intros H. injection H as <- _. right. left. reflexivity. }
    destruct (isinstance e ExcClass.Exception) eqn:He.
    { intros H. injection H as <- _. right. left. reflexivity. }
    intros H. injection H as ->. discriminate He.
Qed.

(* ================================================================== *)
(** * The application *)
(* ================================================================== *)






Section ApplicationFacts.

Variable U : UnicodeData.
Variable P : Pydantic.
Variable send : Request -> result Response.
Variable text : Response -> string.










End ApplicationFacts.




(* ================================================================== *)
(** * The theorems at concrete inputs *)
(* ================================================================== *)

Lemma validate_password_reports_first_violation_witness :
  satisfies ascii_only DigitRule (lit "abc") = false /\
  exists r0,
    first_violation ascii_only (lit "abc") r0 /\
    validate_password ascii_only (lit "abc")
    = Raise (ValueError (rule_message r0)) /\
    forall r1,
      validate_password ascii_only (lit "abc")
      = Raise (ValueError (rule_message r1)) ->
      r1 = r0.
Proof.
  split; [reflexivity|].
  apply (proj1 validate_password_reports_first_violation
           ascii_only (lit "abc") DigitRule).
  reflexivity.
Defined.


Lemma validate_role_raises_on_null_witness :
  let b := [("username", JStr (lit "bob"));
            ("password", JStr (lit "Abcd123!"));
            ("role", JNull)] in
  get "role" b = Some JNull /\
  UserCreate_validate ascii_only plain_pydantic b =
  Crashed (PyExc ExcClass.AttributeError
             "'NoneType' object has no attribute 'lower'").
Proof.
  split; [reflexivity|].
  apply (proj2 (proj2 (validate_role_raises_on_null ascii_only))).
  reflexivity.
Defined.

Lemma timeout_is_unexpected_error_witness :
  let timed_out := fun _ : Request =>
                     @Raise Response
                       (PyExc ExcClass.ConnectTimeout "timed out") in
  let refused := fun _ : Request =>
                   @Raise Response
                     (PyExc ExcClass.ConnectError
                        "All connection attempts failed") in
  let text := fun _ : Response => "HTTP error" in
  (timed_out (request_of GetAllUsers)
   = Raise (PyExc ExcClass.ConnectTimeout "timed out") /\
   ExcClass.issubclass ExcClass.ConnectTimeout ExcClass.TimeoutException
   = true /\
   serve timed_out text GetAllUsers
   = Raise (HTTPException 500 internal_error)) /\
  (serve refused text GetAllUsers
   = Raise (HTTPException 503
              (error_detail "Postgres service unavailable"
                 "connection_error")) /\
   503%Z = 503%Z /\
   "Postgres service unavailable" = "Postgres service unavailable" /\
   exists e,
     refused (request_of GetAllUsers) = Raise e /\
     isinstance e ExcClass.ConnectError = true).
Proof.
  split.
  - split; [reflexivity|]. split; [reflexivity|].
    exact (proj1 (proj1 (proj2 (timeout_is_unexpected_error
                                  (fun _ => Raise (PyExc ExcClass.ConnectTimeout
                                                     "timed out"))
                                  (fun _ => "HTTP error")))
                    GetAllUsers ExcClass.ConnectTimeout "timed out" eq_refl)
             eq_refl).
  - split; [reflexivity|].
    exact (proj2 (proj2 (proj2 (timeout_is_unexpected_error
                                  (fun _ => Raise (PyExc ExcClass.ConnectError
                                                     "All connection attempts failed"))
                                  (fun _ => "HTTP error"))))
             GetAllUsers 503%Z "Postgres service unavailable" eq_refl).
Defined.

Lemma non_2xx_is_http_error_witness :
  let r := {| status_code := 404; json_body := inl JNull |} in
  let send := fun _ : Request => Return r in
  let text := fun _ : Response => "Client error '404 Not Found'" in
  send (request_of (GetUser 999)) = Return r /\
  is_2xx (status_code r) = false /\
  serve send text (GetUser 999)
  = Raise (HTTPException 404
             (downstream_error "Client error '404 Not Found'")).
Proof.
  split; [reflexivity|]. split; [reflexivity|].
  exact (proj1 (proj2 (non_2xx_is_http_error
                         (fun _ => Return {| status_code := 404;
                                             json_body := inl JNull |})
                         (fun _ => "Client error '404 Not Found'")))
           (GetUser 999) {| status_code := 404; json_body := inl JNull |}
           eq_refl eq_refl).
Defined.


Lemma validate_name_idempotent_witness :
  validate_name ascii_only (Some (lit "  John   Doe  "))
  = Return (Some (lit "John Doe")) /\
  validate_name ascii_only (Some (lit "John Doe"))
  = Return (Some (lit "John Doe")).
Proof.
  split; [reflexivity|].
  exact (validate_name_idempotent ascii_only (lit "  John   Doe  ")
           (lit "John Doe") eq_refl).
Defined.

Lemma validate_name_shape_witness :
  let v := lit "  John   Doe  " in
  let n := lit "John Doe" in
  validate_name ascii_only (Some v) = Return (Some n) /\
  n <> [] /\
  (length n <= length v)%nat /\
  isalpha ascii_only (hd 0 n) = true /\
  isalpha ascii_only (last n 0) = true /\
  letters_and_spaces ascii_only n = true /\
  (forall c, In c n -> isspace ascii_only c = true -> c = 32) /\
  (forall l1 a b l2,
     n = (l1 ++ a :: b :: l2)%list ->
     isspace ascii_only a = true -> isspace ascii_only b = false).
Proof.
  split; [reflexivity|].
  exact (validate_name_shape ascii_only (lit "  John   Doe  ")
           (lit "John Doe") eq_refl).
Defined.

Lemma validate_role_normal_form_witness :
  validate_role ascii_only (Some (lit "ADMIN")) = Return (lit "admin") /\
  (lit "admin" = lit "user" \/ lit "admin" = lit "admin") /\
  validate_role ascii_only (Some (lit "admin")) = Return (lit "admin").
Proof.
  split; [reflexivity|].
  exact (validate_role_normal_form ascii_only (Some (lit "ADMIN"))
           (lit "admin") eq_refl).
Defined.

Lemma validate_role_ignores_case_witness :
  forallb is_ascii (lit "Guest") = true /\
  map ascii_lower (lit "Guest") <> lit "user" /\
  map ascii_lower (lit "Guest") <> lit "admin" /\
  validate_role ascii_only (Some (lit "Guest"))
  = Raise (ValueError role_message).
Proof.
  split; [reflexivity|].
  split; [discriminate|]. split; [discriminate|].
  apply (proj2 (proj2 (validate_role_ignores_case ascii_only (lit "Guest")
                         eq_refl))); discriminate.
Defined.

Lemma validate_username_accepts_exactly_witness :
  let v := lit "a.b_9" in
  validate_username ascii_only v = Return v /\
  v = v /\
  v <> [] /\
  forallb username_char v = true /\
  forallb ascii_isdigit v = false /\
  ~ (exists m n,
       v = (repeat 46 (S m) ++ repeat 95 (S n))%list \/
       v = (repeat 95 (S m) ++ repeat 46 (S n))%list).
Proof.
  split; [reflexivity|].
  exact (proj1 (validate_username_accepts_exactly ascii_only (lit "a.b_9")
                  (lit "a.b_9")) eq_refl).
Defined.

Lemma validate_password_accepts_exactly_witness :
  let v := lit "Abcd123!" in
  validate_password ascii_only v = Return v /\
  v = v /\
  (8 <= length v)%nat /\
  (exists c, In c v /\ isdigit ascii_only c = true) /\
  (exists c, In c v /\ isupper ascii_only c = true) /\
  (exists c, In c v /\ islower ascii_only c = true) /\
  (exists c, In c v /\ In c special_set).
Proof.
  split; [reflexivity|].
  exact (proj1 (validate_password_accepts_exactly ascii_only (lit "Abcd123!")
                  (lit "Abcd123!")) eq_refl).
Defined.

Lemma UserCreate_crashes_only_on_null_role_witness :
  let b := [("password", JStr (lit "Abcd123!")); ("role", JNull)] in
  get "role" b = Some JNull /\
  exists e, UserCreate_validate ascii_only plain_pydantic b = Crashed e.
Proof.
  split; [reflexivity|].
  exact (proj2 (UserCreate_crashes_only_on_null_role ascii_only plain_pydantic
                  [("password", JStr (lit "Abcd123!")); ("role", JNull)])
           eq_refl).
Defined.

Lemma accepted_record_invariants_witness :
  let b := [("username", JStr (lit "bob"));
            ("password", JStr (lit "Abcd123!"));
            ("name", JStr (lit "  John   Doe  "));
            ("age", JInt 30);
            ("role", JStr (lit "ADMIN"))] in
  let r := {| username := Some (lit "bob");
              password := lit "Abcd123!";
              name := Some (lit "John Doe");
              age := Some 30%Z;
              email := None;
              role := Some (lit "admin") |} in
  UserCreate_validate ascii_only plain_pydantic b = Valid r /\
  (forall rule, satisfies ascii_only rule (password r) = true) /\
  (role r = Some (lit "user") \/ role r = Some (lit "admin")) /\
  (forall z, age r = Some z -> (0 <= z <= 150)%Z) /\
  (forall n, name r = Some n ->
     n <> [] /\ (length n <= 50)%nat /\ letters_and_spaces ascii_only n = true).
Proof.
  intros b r. split; [reflexivity|].
  exact (accepted_record_invariants ascii_only plain_pydantic b r eq_refl).
Defined.

Lemma password_is_required_witness :
  let b := [("username", JStr (lit "bob"))] in
  get "password" b = None /\
  get "role" b <> Some JNull /\
  exists errs,
    UserCreate_validate ascii_only plain_pydantic b = Invalid errs /\
    In ("password", Missing) errs.
Proof.
  split; [reflexivity|]. split; [discriminate|].
  apply (proj2 (password_is_required ascii_only plain_pydantic
                  [("username", JStr (lit "bob"))] eq_refl)).
  discriminate.
Defined.

Lemma errors_are_collected_witness :
  let b := [("username", JStr (lit "a")); ("password", JStr (lit "abc"))] in
  let errs := [("username", StringTooShort 2);
               ("password", ValueErrorIn password_length_message)] in
  UserCreate_validate ascii_only plain_pydantic b = Invalid errs /\
  errs = (lines (username_field ascii_only b)
          ++ lines (password_field ascii_only b)
          ++ lines (name_field ascii_only b)
          ++ lines (age_field plain_pydantic b)
          ++ lines (email_field plain_pydantic b)
          ++ lines (role_field ascii_only b))%list.
Proof.
  intros b errs. split; [reflexivity|].
  exact (proj1 (errors_are_collected ascii_only plain_pydantic b errs eq_refl)).
Defined.

Lemma route_success_witness :
  let r := {| status_code := 201; json_body := inl (JBool true) |} in
  let send := fun _ : Request => Return r in
  let text := fun _ : Response => "HTTP error" in
  serve send text (DeleteUser 7)
  = Return {| content := JBool true; response_status := 201 |} /\
  exists r' j,
    send (request_of (DeleteUser 7)) = Return r' /\
    is_2xx (status_code r') = true /\
    json_body r' = inl j /\
    {| content := JBool true; response_status := 201 |}
    = {| content := j; response_status := status_code r' |}.
Proof.
  split; [reflexivity|].
  exact (route_success
           (fun _ => Return {| status_code := 201;
                               json_body := inl (JBool true) |})
           (fun _ => "HTTP error") (DeleteUser 7)
           {| content := JBool true; response_status := 201 |} eq_refl).
Defined.

Lemma undecodable_body_is_500_witness :
  let r := {| status_code := 204; json_body := inr "Expecting value" |} in
  let send := fun _ : Request => Return r in
  let text := fun _ : Response => "HTTP error" in
  send (request_of (DeleteUser 7)) = Return r /\
  is_2xx (status_code r) = true /\
  json_body r = inr "Expecting value" /\
  serve send text (DeleteUser 7)
  = Raise (HTTPException 500 (DStr "Expecting value")).
Proof.
  split; [reflexivity|]. split; [reflexivity|]. split; [reflexivity|].
  exact (undecodable_body_is_500
           (fun _ => Return {| status_code := 204;
                               json_body := inr "Expecting value" |})
           (fun _ => "HTTP error") (DeleteUser 7) _ _
           eq_refl eq_refl eq_refl).
Defined.

Lemma base_exceptions_pass_through_witness :
  let e := PyExc ExcClass.CancelledError "cancelled" in
  let send := fun _ : Request => @Raise Response e in
  let text := fun _ : Response => "HTTP error" in
  send (request_of GetAllUsers) = Raise e /\
  isinstance e ExcClass.Exception = false /\
  serve send text GetAllUsers = Raise e.
Proof.
  split; [reflexivity|]. split; [reflexivity|].
  exact (base_exceptions_pass_through
           (fun _ => Raise (PyExc ExcClass.CancelledError "cancelled"))
           (fun _ => "HTTP error") GetAllUsers _ eq_refl eq_refl).
Defined.

Lemma transport_failures_are_opaque_witness :
  let send := fun _ : Request =>
                @Raise Response (PyExc ExcClass.ReadError "connection reset") in
  let text := fun _ : Response => "HTTP error" in
  send (request_of (GetUser 7))
  = Raise (PyExc ExcClass.ReadError "connection reset") /\
  ExcClass.issubclass ExcClass.ReadError ExcClass.Exception = true /\
  ExcClass.ReadError <> ExcClass.HTTPStatusError /\
  serve send text (GetUser 7) = Raise (HTTPException 500 internal_error).
Proof.
  split; [reflexivity|]. split; [reflexivity|]. split; [discriminate|].
  apply (transport_failures_are_opaque
           (fun _ => Raise (PyExc ExcClass.ReadError "connection reset"))
           (fun _ => "HTTP error") (GetUser 7) ExcClass.ReadError
           "connection reset" eq_refl eq_refl).
  discriminate.
Defined.

Lemma requests_are_distinct_witness :
  request_of (GetUser 7) = request_of (GetUser 7) /\
  Z_of_string (string_of_Z (-12)) = Some (-12)%Z /\
  GetUser 7 = GetUser 7.
Proof.
  split; [reflexivity|].
  split; [exact (proj1 requests_are_distinct (-12)%Z)|].
  exact (proj2 requests_are_distinct (GetUser 7) (GetUser 7) eq_refl).
Defined.

Lemma accepted_record_fields_witness :
  let b := [("username", JStr (lit "bob"));
            ("password", JStr (lit "Abcd123!"));
            ("name", JStr (lit "  John   Doe  "));
            ("role", JStr (lit "ADMIN"))] in
  let r := {| username := Some (lit "bob");
              password := lit "Abcd123!";
              name := Some (lit "John Doe");
              age := None;
              email := None;
              role := Some (lit "admin") |} in
  UserCreate_validate ascii_only plain_pydantic b = Valid r /\
  get "password" b = Some (JStr (password r)) /\
  name r = Some (normalize_name ascii_only (lit "  John   Doe  ")) /\
  role r = Some (str_lower ascii_only (lit "ADMIN")).
Proof.
  intros b r. split; [reflexivity|].
  pose proof (accepted_record_fields ascii_only plain_pydantic b r eq_refl)
    as (_ & _ & Hp & Hn & Hr).
  split; [exact Hp|]. split; [exact Hn | exact Hr].
Defined.


Lemma surfaced_status_witness :
  let r := {| status_code := 404; json_body := inl JNull |} in
  let send := fun _ : Request => Return r in
  let text := fun _ : Response => "Client error '404 Not Found'" in
  serve send text (GetUser 999)
  = Raise (HTTPException 404 (downstream_error "Client error '404 Not Found'")) /\
  (404 = 503 \/ 404 = 500 \/
   exists r',
     404 = status_code r' /\
     (send (request_of (GetUser 999)) = Return r' \/
      exists m, send (request_of (GetUser 999)) = Raise (HTTPStatusError m r')))%Z.
Proof.
  split; [reflexivity|].
  exact (surfaced_status
           (fun _ => Return {| status_code := 404; json_body := inl JNull |})
           (fun _ => "Client error '404 Not Found'") (GetUser 999) 404%Z
           (downstream_error "Client error '404 Not Found'") eq_refl).
Defined.
